(** * Webhook signature verification of the JewelMusic Python SDK

    A shallow embedding of the three static methods of
    [WebhooksResource] in [jewelmusic_sdk/resources/webhooks.py]:
    [verify_signature], [parse_event] and [create_signature], together
    with the part of the Python runtime they call.

    Conventions.
    - A Python [str] is a list of code points ([Z]); lone surrogates are
      representable, as they are in Python.
    - A Python [bytes] is a [list byte].
    - A Python [int] is a [Z].
    - An expression that can raise is a value of [result A]; the [try] /
      [except] blocks of the source are [try_except] with the tuple of
      caught classes.
    - [time.time()] is read once per call; the reading is the explicit
      argument [now].
    - [hashlib.sha256], [hmac] and the UTF-8 codec are modelled in full.
      [json.loads] is a parameter of [parse_event]; [Json.loads] is a
      reader of the JSON grammar that instantiates it.
    - Interpreter resource limits (recursion depth, the 4300-digit limit of
      int/str conversion, memory) are outside the model. *)

From Stdlib Require Import ZArith List Bool Lia.
From Stdlib.Strings Require Import Ascii Byte.
From Stdlib.Strings Require String.
Import String.StringSyntax.
Delimit Scope string_scope with string.
Bind Scope string_scope with String.string.
Abbreviation string := String.string.
Import ListNotations.

Local Open Scope Z_scope.

(** ** Python runtime *)

Module Py.

(** Exception classes that the modelled code can meet, with the parent of
    each in the built-in hierarchy. *)
Inductive exn_class : Type :=
| Exception
| ValueError
| UnicodeError
| UnicodeDecodeError
| UnicodeEncodeError
| JSONDecodeError
| TypeError
| AttributeError
| LookupError
| IndexError.

Definition exn_class_eqb (a b : exn_class) : bool :=
  match a, b with
  | Exception, Exception | ValueError, ValueError
  | UnicodeError, UnicodeError | UnicodeDecodeError, UnicodeDecodeError
  | UnicodeEncodeError, UnicodeEncodeError | JSONDecodeError, JSONDecodeError
  | TypeError, TypeError | AttributeError, AttributeError
  | LookupError, LookupError | IndexError, IndexError => true
  | _, _ => false
  end.

Definition parent (c : exn_class) : option exn_class :=
  match c with
  | Exception => None
  | ValueError => Some Exception
  | UnicodeError => Some ValueError
  | UnicodeDecodeError => Some UnicodeError
  | UnicodeEncodeError => Some UnicodeError
  | JSONDecodeError => Some ValueError
  | TypeError => Some Exception
  | AttributeError => Some Exception
  | LookupError => Some Exception
  | IndexError => Some LookupError
  end.

(** [issubclass c d]; the hierarchy above has depth four. *)
Fixpoint issubclass_fuel (fuel : nat) (c d : exn_class) : bool :=
  exn_class_eqb c d ||
  match fuel with
  | O => false
  | S f => match parent c with
           | Some p => issubclass_fuel f p d
           | None => false
           end
  end.

Definition issubclass : exn_class -> exn_class -> bool := issubclass_fuel 4.

(** A raised exception: its class and, where the source gives one, its
    message. *)
Record exn : Type := mk_exn { exn_cls : exn_class; exn_msg : option string }.

Definition raise_cls (c : exn_class) : exn := mk_exn c None.

Inductive result (A : Type) : Type :=
| Ok (a : A)
| Err (e : exn).
Arguments Ok {A} a.
Arguments Err {A} e.

Definition bind {A B : Type} (r : result A) (k : A -> result B) : result B :=
  match r with
  | Ok a => k a
  | Err e => Err e
  end.

(** [try: body except (c1, ..., cn): handler] *)
Definition try_except {A : Type} (body : result A) (caught : list exn_class)
    (handler : exn -> result A) : result A :=
  match body with
  | Ok a => Ok a
  | Err e => if existsb (issubclass (exn_cls e)) caught then handler e else Err e
  end.

(** *** Strings *)

Definition str : Type := list Z.
Definition bytes : Type := list byte.

Definition byte_val (b : byte) : Z := Z.of_N (Byte.to_N b).

Definition byte_of (z : Z) : byte :=
  match Byte.of_N (Z.to_N (z mod 256)) with
  | Some b => b
  | None => x00
  end.

(** An ASCII literal as a [str] and as [bytes]. *)
Definition lit (s : string) : str :=
  List.map (fun a => Z.of_N (N_of_ascii a)) (String.list_ascii_of_string s).

Definition blit (s : string) : bytes := String.list_byte_of_string s.

Fixpoint str_eqb (a b : str) : bool :=
  match a, b with
  | [], [] => true
  | x :: a', y :: b' => (x =? y) && str_eqb a' b'
  | _, _ => false
  end.

(** [s.startswith(p)] *)
Fixpoint startswith (p s : str) : bool :=
  match p, s with
  | [], _ => true
  | x :: p', y :: s' => (x =? y) && startswith p' s'
  | _ :: _, [] => false
  end.

(** [s.split(sep)] for a separator of one character: the pieces between
    the occurrences of [sep], never an empty list. *)
Fixpoint split (sep : Z) (s : str) : list str :=
  match s with
  | [] => [[]]
  | c :: r =>
      if c =? sep then [] :: split sep r
      else match split sep r with
           | piece :: pieces => (c :: piece) :: pieces
           | [] => [[c]]
           end
  end.

(** [l[i]] on a list; out of range raises [IndexError]. *)
Definition getitem {A : Type} (l : list A) (i : nat) : result A :=
  match nth_error l i with
  | Some a => Ok a
  | None => Err (raise_cls IndexError)
  end.

(** [next((el for el in elements if pred(el)), None)] *)
Definition next_or_none (pred : str -> bool) (elements : list str) : option str :=
  find pred elements.

(** [not x] for [x] a [str] or [None]. *)
Definition py_not (x : option str) : bool :=
  match x with
  | None => true
  | Some [] => true
  | Some (_ :: _) => false
  end.

(** [x.split(sep)] for [x] a [str] or [None]; [None] has no attribute
    [split]. *)
Definition attr_split (x : option str) (sep : Z) : result (list str) :=
  match x with
  | Some s => Ok (split sep s)
  | None => Err (raise_cls AttributeError)
  end.

(** *** UTF-8 *)

Definition is_cont (b : Z) : bool := (0x80 <=? b) && (b <=? 0xBF).

(** Strict UTF-8 decoding of a list of byte values: no overlong forms, no
    surrogates, nothing above U+10FFFF. *)
Fixpoint utf8_decode_vals (bs : list Z) : option str :=
  match bs with
  | [] => Some []
  | b0 :: r0 =>
      if b0 <? 0x80 then option_map (cons b0) (utf8_decode_vals r0)
      else if b0 <? 0xC2 then None
      else if b0 <? 0xE0 then
        match r0 with
        | b1 :: r1 =>
            if is_cont b1
            then option_map (cons ((b0 - 0xC0) * 64 + (b1 - 0x80)))
                            (utf8_decode_vals r1)
            else None
        | _ => None
        end
      else if b0 <? 0xF0 then
        match r0 with
        | b1 :: b2 :: r2 =>
            if ((if b0 =? 0xE0 then 0xA0 else 0x80) <=? b1)
               && (b1 <=? (if b0 =? 0xED then 0x9F else 0xBF))
               && is_cont b2
            then option_map
                   (cons ((b0 - 0xE0) * 4096 + (b1 - 0x80) * 64 + (b2 - 0x80)))
                   (utf8_decode_vals r2)
            else None
        | _ => None
        end
      else if b0 <? 0xF5 then
        match r0 with
        | b1 :: b2 :: b3 :: r3 =>
            if ((if b0 =? 0xF0 then 0x90 else 0x80) <=? b1)
               && (b1 <=? (if b0 =? 0xF4 then 0x8F else 0xBF))
               && is_cont b2 && is_cont b3
            then option_map
                   (cons ((b0 - 0xF0) * 262144 + (b1 - 0x80) * 4096
                          + (b2 - 0x80) * 64 + (b3 - 0x80)))
                   (utf8_decode_vals r3)
            else None
        | _ => None
        end
      else None
  end.

(** [b.decode('utf-8')] *)
Definition utf8_decode (b : bytes) : result str :=
  match utf8_decode_vals (List.map byte_val b) with
  | Some s => Ok s
  | None => Err (raise_cls UnicodeDecodeError)
  end.

(** The UTF-8 form of one code point; surrogates have none. *)
Definition utf8_encode_cp (c : Z) : option (list Z) :=
  if c <? 0 then None
  else if c <? 0x80 then Some [c]
  else if c <? 0x800 then Some [0xC0 + c / 64; 0x80 + c mod 64]
  else if (0xD800 <=? c) && (c <=? 0xDFFF) then None
  else if c <? 0x10000 then
    Some [0xE0 + c / 4096; 0x80 + (c / 64) mod 64; 0x80 + c mod 64]
  else if c <? 0x110000 then
    Some [0xF0 + c / 262144; 0x80 + (c / 4096) mod 64;
          0x80 + (c / 64) mod 64; 0x80 + c mod 64]
  else None.

Fixpoint utf8_encode_vals (s : str) : option (list Z) :=
  match s with
  | [] => Some []
  | c :: r =>
      match utf8_encode_cp c, utf8_encode_vals r with
      | Some bs, Some rest => Some (bs ++ rest)
      | _, _ => None
      end
  end.

(** [s.encode('utf-8')] *)
Definition utf8_encode (s : str) : result bytes :=
  match utf8_encode_vals s with
  | Some vs => Ok (List.map byte_of vs)
  | None => Err (raise_cls UnicodeEncodeError)
  end.

(** *** Integers and text *)

(** The characters that [int()] skips around a number: the ASCII
    whitespace of C and the Unicode spaces above U+007F. *)
Definition int_space (c : Z) : bool :=
  (c =? 0x20) || ((0x09 <=? c) && (c <=? 0x0D))
  || (c =? 0x85) || (c =? 0xA0) || (c =? 0x1680)
  || ((0x2000 <=? c) && (c <=? 0x200A))
  || (c =? 0x2028) || (c =? 0x2029) || (c =? 0x202F) || (c =? 0x205F)
  || (c =? 0x3000).

(** The code points of the digit zero of every decimal script (general
    category Nd, Unicode 14); the digits one to nine follow each. *)
Definition decimal_zeros : list Z :=
  [0x30; 0x660; 0x6f0; 0x7c0; 0x966; 0x9e6; 0xa66; 0xae6; 0xb66; 0xbe6;
   0xc66; 0xce6; 0xd66; 0xde6; 0xe50; 0xed0; 0xf20; 0x1040; 0x1090; 0x17e0;
   0x1810; 0x1946; 0x19d0; 0x1a80; 0x1a90; 0x1b50; 0x1bb0; 0x1c40; 0x1c50;
   0xa620; 0xa8d0; 0xa900; 0xa9d0; 0xa9f0; 0xaa50; 0xabf0; 0xff10; 0x104a0;
   0x10d30; 0x11066; 0x110f0; 0x11136; 0x111d0; 0x112f0; 0x11450; 0x114d0;
   0x11650; 0x116c0; 0x11730; 0x118e0; 0x11950; 0x11c50; 0x11d50; 0x11da0;
   0x16a60; 0x16ac0; 0x16b50; 0x1d7ce; 0x1d7d8; 0x1d7e2; 0x1d7ec; 0x1d7f6;
   0x1e140; 0x1e2f0; 0x1e950; 0x1fbf0].

Definition decimal_value (c : Z) : option Z :=
  match find (fun z => (z <=? c) && (c <? z + 10)) decimal_zeros with
  | Some z => Some (c - z)
  | None => None
  end.

Fixpoint lstrip (s : str) : str :=
  match s with
  | c :: r => if int_space c then lstrip r else s
  | [] => []
  end.

(** The digits after the first one: a digit, or one underscore and a
    digit, repeated.  Returns the value and what follows the number. *)
Fixpoint scan_digits (acc : Z) (s : str) : option (Z * str) :=
  match s with
  | [] => Some (acc, [])
  | c :: r =>
      match decimal_value c with
      | Some d => scan_digits (10 * acc + d) r
      | None =>
          if c =? 0x5F then
            match r with
            | c' :: r' =>
                match decimal_value c' with
                | Some d => scan_digits (10 * acc + d) r'
                | None => None
                end
            | [] => None
            end
          else Some (acc, s)
      end
  end.

(** An optional sign in front of the digits. *)
Definition take_sign (s : str) : bool * str :=
  match s with
  | 0x2D :: r => (true, r)
  | 0x2B :: r => (false, r)
  | _ => (false, s)
  end.

(** [int(s)] for a [str], base ten: spaces, an optional sign, digits with
    single underscores between them, spaces. *)
Definition py_int (s : str) : result Z :=
  let '(neg, s2) := take_sign (lstrip s) in
  match s2 with
  | c :: r =>
      match decimal_value c with
      | Some d =>
          match scan_digits d r with
          | Some (v, rest) =>
              match lstrip rest with
              | [] => Ok (if neg then - v else v)
              | _ :: _ => Err (raise_cls ValueError)
              end
          | None => Err (raise_cls ValueError)
          end
      | None => Err (raise_cls ValueError)
      end
  | [] => Err (raise_cls ValueError)
  end.

(** The decimal digits of [n >= 0] in front of [acc]; [fuel] bounds the
    number of digits. *)
Fixpoint dec_digits (fuel : nat) (n : Z) (acc : str) : str :=
  match fuel with
  | O => acc
  | S f =>
      let acc' := (0x30 + n mod 10) :: acc in
      if n / 10 =? 0 then acc' else dec_digits f (n / 10) acc'
  end.

(** [str(z)], which is also what an f-string field renders. *)
Definition py_str_int (z : Z) : str :=
  if z <? 0
  then 0x2D :: dec_digits (S (Z.to_nat (Z.log2 (- z)))) (- z) []
  else dec_digits (S (Z.to_nat (Z.log2 z))) z [].

(** [timestamp or default] for an [Optional[int]]: [None] and [0] are
    falsy. *)
Definition py_or_int (x : option Z) (default : Z) : Z :=
  match x with
  | Some t => if t =? 0 then default else t
  | None => default
  end.

End Py.

(** ** hashlib.sha256 and hmac *)

Module Sha256.

(** The constants are defined as the standard defines them: from the
    first prime numbers. *)
Definition is_prime (n : Z) : bool :=
  forallb (fun d => negb (n mod d =? 0))
          (List.map Z.of_nat (seq 2 (Z.to_nat (Z.sqrt n) - 1))).

Fixpoint primes_from (fuel count : nat) (n : Z) : list Z :=
  match fuel, count with
  | S f, S c =>
      if is_prime n then n :: primes_from f c (n + 1)
      else primes_from f count (n + 1)
  | _, _ => []
  end.

Definition first_primes (count : nat) : list Z := primes_from 400 count 2.

(** The integer cube root below [2 ^ bits], one bit at a time. *)
Fixpoint cbrt_bits (bits : nat) (x r : Z) : Z :=
  match bits with
  | O => r
  | S b =>
      let r' := r + 2 ^ Z.of_nat b in
      cbrt_bits b x (if r' * r' * r' <=? x then r' else r)
  end.

(** The first 32 bits of the fractional part of the cube root of each of
    the first 64 primes. *)
Definition K : list Z :=
  Eval vm_compute in
    List.map (fun p => cbrt_bits 40 (p * 2 ^ 96) 0 mod 2 ^ 32) (first_primes 64).

(** The eight working words. *)
Record state : Type := mk_state {
  ha : Z; hb : Z; hc : Z; hd : Z; he : Z; hf : Z; hg : Z; hh : Z
}.

(** The first 32 bits of the fractional part of the square root of each
    of the first 8 primes. *)
Definition H0 : state :=
  Eval vm_compute in
    let h := List.map (fun p => Z.sqrt (p * 2 ^ 64) mod 2 ^ 32) (first_primes 8) in
    mk_state (nth 0 h 0) (nth 1 h 0) (nth 2 h 0) (nth 3 h 0)
             (nth 4 h 0) (nth 5 h 0) (nth 6 h 0) (nth 7 h 0).

Definition w32 (x : Z) : Z := x mod 2 ^ 32.
Definition add32 (x y : Z) : Z := w32 (x + y).
Definition rotr (n x : Z) : Z :=
  Z.lor (Z.shiftr x n) (w32 (Z.shiftl x (32 - n))).
Definition shr (n x : Z) : Z := Z.shiftr x n.
Definition not32 (x : Z) : Z := Z.lxor x 0xFFFFFFFF.

Definition Ch (x y z : Z) : Z := Z.lxor (Z.land x y) (Z.land (not32 x) z).
Definition Maj (x y z : Z) : Z :=
  Z.lxor (Z.lxor (Z.land x y) (Z.land x z)) (Z.land y z).
Definition Sigma0 (x : Z) : Z := Z.lxor (Z.lxor (rotr 2 x) (rotr 13 x)) (rotr 22 x).
Definition Sigma1 (x : Z) : Z := Z.lxor (Z.lxor (rotr 6 x) (rotr 11 x)) (rotr 25 x).
Definition sigma0 (x : Z) : Z := Z.lxor (Z.lxor (rotr 7 x) (rotr 18 x)) (shr 3 x).
Definition sigma1 (x : Z) : Z := Z.lxor (Z.lxor (rotr 17 x) (rotr 19 x)) (shr 10 x).

(** Padding: the bit 1, zeros up to 56 modulo 64, the length in bits on
    eight bytes, big-endian. *)
Definition be_bytes (n : nat) (x : Z) : list Z :=
  List.map (fun i => (x / 2 ^ (8 * Z.of_nat i)) mod 256) (rev (seq 0 n)).

Definition pad (msg : list Z) : list Z :=
  let len := Z.of_nat (length msg) in
  let zeros := Z.to_nat ((55 - len) mod 64) in
  msg ++ 0x80 :: repeat 0 zeros ++ be_bytes 8 (8 * len).

Fixpoint be_words (n : nat) (bs : list Z) : list Z :=
  match n, bs with
  | S n', b0 :: b1 :: b2 :: b3 :: r =>
      (((b0 * 256 + b1) * 256 + b2) * 256 + b3) :: be_words n' r
  | _, _ => []
  end.

(** The message schedule, most recent word first: [n] more words are
    added to [w]. *)
Fixpoint schedule (n : nat) (w : list Z) : list Z :=
  match n with
  | O => w
  | S n' =>
      let wt := add32 (add32 (sigma1 (nth 1 w 0)) (nth 6 w 0))
                      (add32 (sigma0 (nth 14 w 0)) (nth 15 w 0)) in
      schedule n' (wt :: w)
  end.

Definition round (s : state) (kw : Z * Z) : state :=
  let '(k, w) := kw in
  let t1 := add32 (add32 (add32 (hh s) (Sigma1 (he s)))
                         (add32 (Ch (he s) (hf s) (hg s)) k)) w in
  let t2 := add32 (Sigma0 (ha s)) (Maj (ha s) (hb s) (hc s)) in
  mk_state (add32 t1 t2) (ha s) (hb s) (hc s)
           (add32 (hd s) t1) (he s) (hf s) (hg s).

Definition compress (s : state) (block : list Z) : state :=
  let w := rev (schedule 48 (rev (be_words 16 block))) in
  let s' := fold_left round (combine K w) s in
  mk_state (add32 (ha s) (ha s')) (add32 (hb s) (hb s'))
           (add32 (hc s) (hc s')) (add32 (hd s) (hd s'))
           (add32 (he s) (he s')) (add32 (hf s) (hf s'))
           (add32 (hg s) (hg s')) (add32 (hh s) (hh s')).

(** One [compress] per 64-byte block; [nblocks] is the number of blocks. *)
Fixpoint blocks (nblocks : nat) (s : state) (bs : list Z) : state :=
  match nblocks with
  | O => s
  | S n => blocks n (compress s (firstn 64 bs)) (skipn 64 bs)
  end.

Definition state_bytes (s : state) : list Z :=
  flat_map (be_bytes 4) [ha s; hb s; hc s; hd s; he s; hf s; hg s; hh s].

(** [hashlib.sha256(msg).digest()] on byte values. *)
Definition digest_vals (msg : list Z) : list Z :=
  let p := pad msg in
  state_bytes (blocks (length p / 64)%nat H0 p).

End Sha256.

Module Hmac.

Definition block_size : nat := 64.

(** [hmac.new(key, msg, hashlib.sha256).digest()]: a key longer than a
    block is hashed first, then padded with zeros to one block. *)
Definition digest_vals (key msg : list Z) : list Z :=
  let k0 := if (block_size <? length key)%nat then Sha256.digest_vals key else key in
  let k := k0 ++ repeat 0 (block_size - length k0) in
  let ipad := List.map (fun b => Z.lxor b 0x36) k in
  let opad := List.map (fun b => Z.lxor b 0x5C) k in
  Sha256.digest_vals (opad ++ Sha256.digest_vals (ipad ++ msg)).

Definition hex_digit (n : Z) : Z := if n <? 10 then 0x30 + n else 0x61 + (n - 10).

(** [.hexdigest()]: two lowercase hexadecimal digits per byte. *)
Definition hex (bs : list Z) : Py.str :=
  flat_map (fun b => [hex_digit (b / 16); hex_digit (b mod 16)]) bs.

Definition hexdigest (key msg : Py.bytes) : Py.str :=
  hex (digest_vals (List.map Py.byte_val key) (List.map Py.byte_val msg)).

Definition is_ascii (c : Z) : bool := (0 <=? c) && (c <? 128).

(** [hmac.compare_digest(a, b)] on two [str]: equality, computed without
    a shortcut; a non-ASCII argument is a [TypeError]. *)
Definition compare_digest (a b : Py.str) : Py.result bool :=
  if forallb is_ascii a && forallb is_ascii b
  then Py.Ok (Py.str_eqb a b)
  else Py.Err (Py.raise_cls Py.TypeError).

End Hmac.

(** ** json *)

Module Json.

(** What [json.loads] builds.  A number with a fraction or an exponent
    becomes a Python float; the model keeps its lexeme instead of a
    floating-point value.  A [dict] keeps insertion order. *)
#[warnings="-register-all"]
Inductive value : Type :=
| Null
| Bool (b : bool)
| Int (z : Z)
| Float (lexeme : Py.str)
| Str (s : Py.str)
| Array (items : list value)
| Object (members : list (Py.str * value)).

(** [d[k] = v] on a [dict]: a present key keeps its place. *)
Fixpoint dict_set (k : Py.str) (v : value) (d : list (Py.str * value))
    : list (Py.str * value) :=
  match d with
  | [] => [(k, v)]
  | (k', v') :: d' =>
      if Py.str_eqb k k' then (k', v) :: d' else (k', v') :: dict_set k v d'
  end.

Definition is_ws (c : Z) : bool :=
  (c =? 0x20) || (c =? 0x09) || (c =? 0x0A) || (c =? 0x0D).

Fixpoint skip_ws (s : Py.str) : Py.str :=
  match s with
  | c :: r => if is_ws c then skip_ws r else s
  | [] => []
  end.

Definition is_digit (c : Z) : bool := (0x30 <=? c) && (c <=? 0x39).

Definition hex_val (c : Z) : option Z :=
  if is_digit c then Some (c - 0x30)
  else if (0x61 <=? c) && (c <=? 0x66) then Some (c - 0x61 + 10)
  else if (0x41 <=? c) && (c <=? 0x46) then Some (c - 0x41 + 10)
  else None.

Definition hex4 (a b c d : Z) : option Z :=
  match hex_val a, hex_val b, hex_val c, hex_val d with
  | Some x, Some y, Some z, Some w => Some (((x * 16 + y) * 16 + z) * 16 + w)
  | _, _, _, _ => None
  end.

(** The low half of an escaped surrogate pair, when [s] starts with one. *)
Definition low_surrogate (s : Py.str) : option (Z * Py.str) :=
  match s with
  | 0x5C :: 0x75 :: a :: b :: c :: d :: r =>
      match hex4 a b c d with
      | Some lo => if (0xDC00 <=? lo) && (lo <=? 0xDFFF) then Some (lo, r) else None
      | None => None
      end
  | _ => None
  end.

(** A string after its opening quote, in strict mode: [acc] holds the
    characters read so far, last first. *)
Fixpoint scan_string (s acc : Py.str) : option (Py.str * Py.str) :=
  match s with
  | [] => None
  | 0x22 :: r => Some (rev acc, r)
  | 0x5C :: e :: r =>
      if e =? 0x75 then
        match r with
        | a :: b :: c :: d :: r' =>
            match hex4 a b c d with
            | Some u =>
                if (0xD800 <=? u) && (u <=? 0xDBFF) then
                  match r' with
                  | 0x5C :: 0x75 :: a2 :: b2 :: c2 :: d2 :: r'' =>
                      match low_surrogate r' with
                      | Some (lo, _) =>
                          scan_string r''
                            ((0x10000 + (u - 0xD800) * 1024 + (lo - 0xDC00)) :: acc)
                      | None => scan_string r' (u :: acc)
                      end
                  | _ => scan_string r' (u :: acc)
                  end
                else scan_string r' (u :: acc)
            | None => None
            end
        | _ => None
        end
      else
        match (if e =? 0x22 then Some 0x22 else if e =? 0x5C then Some 0x5C
               else if e =? 0x2F then Some 0x2F else if e =? 0x62 then Some 0x08
               else if e =? 0x66 then Some 0x0C else if e =? 0x6E then Some 0x0A
               else if e =? 0x72 then Some 0x0D else if e =? 0x74 then Some 0x09
               else None) with
        | Some c => scan_string r (c :: acc)
        | None => None
        end
  | c :: r => if c <=? 0x1F then None else scan_string r (c :: acc)
  end.

(** The longest run of ASCII digits in front of [s], and what follows. *)
Fixpoint span_digits (s : Py.str) : Py.str * Py.str :=
  match s with
  | c :: r => if is_digit c then let '(ds, r') := span_digits r in (c :: ds, r')
              else ([], s)
  | [] => ([], [])
  end.

Definition digits_value (ds : Py.str) : Z :=
  fold_left (fun a c => 10 * a + (c - 0x30)) ds 0.

(** A number, the longest match: an optional minus sign; a zero, or a
    digit from one to nine and any digits; optionally a point and one digit
    or more; optionally [e] or [E], an optional sign and one digit or more. *)
Definition scan_number (s : Py.str) : option (value * Py.str) :=
  let '(sign, s1) := match s with 0x2D :: r => ([0x2D], r) | _ => ([], s) end in
  match s1 with
  | c :: r =>
      if is_digit c then
        let '(ip, s2) := if c =? 0x30 then ([c], r) else span_digits s1 in
        let '(fp, s3) :=
          match s2 with
          | 0x2E :: r2 =>
              match span_digits r2 with
              | ((_ :: _) as ds, r3) => (0x2E :: ds, r3)
              | _ => ([], s2)
              end
          | _ => ([], s2)
          end in
        let '(ep, s4) :=
          match s3 with
          | e :: r3 =>
              if (e =? 0x65) || (e =? 0x45) then
                let '(es, r4) :=
                  match r3 with
                  | g :: r4 => if (g =? 0x2B) || (g =? 0x2D) then ([g], r4) else ([], r3)
                  | [] => ([], r3)
                  end in
                match span_digits r4 with
                | ((_ :: _) as ds, r5) => (e :: es ++ ds, r5)
                | _ => ([], s3)
                end
              else ([], s3)
          | [] => ([], s3)
          end in
        match fp, ep with
        | [], [] =>
            Some (Int (match sign with [] => digits_value ip | _ => - digits_value ip end), s4)
        | _, _ => Some (Float (sign ++ ip ++ fp ++ ep), s4)
        end
      else None
  | [] => None
  end.

(** [s] when it starts with the ASCII word [w], without it. *)
Definition strip_prefix (w : string) (s : Py.str) : option Py.str :=
  if Py.startswith (Py.lit w) s then Some (skipn (String.length w) s) else None.

(** One value at the head of [s], and what follows it.  [fuel] bounds the
    number of nested calls. *)
Fixpoint scan_once (fuel : nat) (s : Py.str) : option (value * Py.str) :=
  match fuel with
  | O => None
  | S f =>
      match s with
      | 0x22 :: r =>
          match scan_string r [] with
          | Some (k, r') => Some (Str k, r')
          | None => None
          end
      | 0x7B :: r =>
          match skip_ws r with
          | 0x7D :: r' => Some (Object [], r')
          | r' =>
              match parse_members f [] r' with
              | Some (ms, r'') => Some (Object ms, r'')
              | None => None
              end
          end
      | 0x5B :: r =>
          match skip_ws r with
          | 0x5D :: r' => Some (Array [], r')
          | r' =>
              match parse_items f [] r' with
              | Some (vs, r'') => Some (Array vs, r'')
              | None => None
              end
          end
      | _ =>
          match strip_prefix "null" s, strip_prefix "true" s,
                strip_prefix "false" s, strip_prefix "NaN" s,
                strip_prefix "Infinity" s, strip_prefix "-Infinity" s with
          | Some r, _, _, _, _, _ => Some (Null, r)
          | _, Some r, _, _, _, _ => Some (Bool true, r)
          | _, _, Some r, _, _, _ => Some (Bool false, r)
          | _, _, _, Some r, _, _ => Some (Float (Py.lit "NaN"), r)
          | _, _, _, _, Some r, _ => Some (Float (Py.lit "Infinity"), r)
          | _, _, _, _, _, Some r => Some (Float (Py.lit "-Infinity"), r)
          | _, _, _, _, _, _ => scan_number s
          end
      end
  end
with parse_items (fuel : nat) (acc : list value) (s : Py.str)
    : option (list value * Py.str) :=
  match fuel with
  | O => None
  | S f =>
      match scan_once f s with
      | Some (v, r) =>
          match skip_ws r with
          | 0x2C :: r' => parse_items f (v :: acc) (skip_ws r')
          | 0x5D :: r' => Some (rev (v :: acc), r')
          | _ => None
          end
      | None => None
      end
  end
with parse_members (fuel : nat) (acc : list (Py.str * value)) (s : Py.str)
    : option (list (Py.str * value) * Py.str) :=
  match fuel with
  | O => None
  | S f =>
      match s with
      | 0x22 :: r =>
          match scan_string r [] with
          | Some (k, r1) =>
              match skip_ws r1 with
              | 0x3A :: r2 =>
                  match scan_once f (skip_ws r2) with
                  | Some (v, r3) =>
                      match skip_ws r3 with
                      | 0x2C :: r4 => parse_members f (dict_set k v acc) (skip_ws r4)
                      | 0x7D :: r4 => Some (dict_set k v acc, r4)
                      | _ => None
                      end
                  | None => None
                  end
              | _ => None
              end
          | None => None
          end
      | _ => None
      end
  end.

(** [json.loads(s)] for a [str]: one value between optional whitespace,
    nothing after it; anything else is a [JSONDecodeError]. *)
Definition loads (s : Py.str) : Py.result value :=
  match scan_once (2 * length s + 2) (skip_ws s) with
  | Some (v, r) =>
      match skip_ws r with
      | [] => Py.Ok v
      | _ :: _ => Py.Err (Py.raise_cls Py.JSONDecodeError)
      end
  | None => Py.Err (Py.raise_cls Py.JSONDecodeError)
  end.

(** An ASCII literal in which every apostrophe stands for a double
    quote. *)
Definition text (s : string) : Py.str :=
  List.map (fun c => if c =? 0x27 then 0x22 else c) (Py.lit s).

Definition btext (s : string) : Py.bytes := List.map Py.byte_of (text s).

End Json.

(** ** jewelmusic_sdk.resources.webhooks *)

Module Webhooks.

Import Py.

Notation "x <- c1 ;; c2" := (bind c1 (fun x => c2))
  (at level 61, c1 at next level, right associativity).

(** The argument [payload: Union[str, bytes]]. *)
Inductive payload : Type :=
| PStr (s : str)
| PBytes (b : bytes).

(** [WebhooksResource.verify_signature]; [now] is the reading of
    [int(time.time())]. *)
Definition verify_signature (now : Z) (payload : payload) (signature : str)
    (secret : str) (tolerance : Z) : result bool :=
  try_except
    (let elements := split 0x2C signature in
     let timestamp_element := next_or_none (startswith (lit "t=")) elements in
     let hash_element := next_or_none (startswith (lit "v1=")) elements in
     if py_not timestamp_element || py_not hash_element then Ok false
     else
       ts_parts <- attr_split timestamp_element 0x3D ;;
       ts_text <- getitem ts_parts 1 ;;
       timestamp <- py_int ts_text ;;
       hash_parts <- attr_split hash_element 0x3D ;;
       received_hash <- getitem hash_parts 1 ;;
       if Z.abs (now - timestamp) >? tolerance then Ok false
       else
         payload_bytes <- match payload with
                          | PStr s => utf8_encode s
                          | PBytes b => Ok b
                          end ;;
         decoded <- utf8_decode payload_bytes ;;
         let signed_payload := py_str_int timestamp ++ lit "." ++ decoded in
         key <- utf8_encode secret ;;
         msg <- utf8_encode signed_payload ;;
         let expected_hash := Hmac.hexdigest key msg in
         Hmac.compare_digest received_hash expected_hash)
    [ValueError; TypeError; AttributeError]
    (fun _ => Ok false).

Section ParseEvent.

(** [json.loads], the decoder of the standard library. *)
Variable json_loads : str -> result Json.value.

(** [WebhooksResource.parse_event] *)
Definition parse_event (payload : payload) : result Json.value :=
  try_except
    (payload_str <- match payload with
                    | PBytes b => utf8_decode b
                    | PStr s => Ok s
                    end ;;
     json_loads payload_str)
    [JSONDecodeError; UnicodeDecodeError; AttributeError]
    (fun _ => Err (mk_exn ValueError (Some "Invalid webhook payload format"%string))).

End ParseEvent.

(** [WebhooksResource.create_signature]; [timestamp] is [None] when the
    argument is omitted, and [now] is the reading of [int(time.time())]
    that the default uses. *)
Definition create_signature (now : Z) (payload : payload) (secret : str)
    (timestamp : option Z) : result str :=
  let ts := py_or_int timestamp now in
  payload_bytes <- match payload with
                   | PStr s => utf8_encode s
                   | PBytes b => Ok b
                   end ;;
  decoded <- utf8_decode payload_bytes ;;
  let signed_payload := py_str_int ts ++ lit "." ++ decoded in
  key <- utf8_encode secret ;;
  msg <- utf8_encode signed_payload ;;
  let hash_value := Hmac.hexdigest key msg in
  Ok (lit "t=" ++ py_str_int ts ++ lit ",v1=" ++ hash_value).

End Webhooks.

(** ** Specification-level definitions

    The vocabulary in which the properties below are stated.  None of these
    is part of the program; each is related to the program by a lemma. *)

Module Spec.

Import Py Webhooks.

(** The raw bytes of a payload: a [str] payload stands for its UTF-8
    form. *)
Definition payload_bytes (p : payload) : result bytes :=
  match p with
  | PStr s => utf8_encode s
  | PBytes b => Ok b
  end.

(** The text that [parse_event] hands to the JSON decoder. *)
Definition payload_text (p : payload) : result str :=
  match p with
  | PBytes b => utf8_decode b
  | PStr s => Ok s
  end.

(** The digest as the specification words it: HMAC-SHA256, keyed with the
    UTF-8 bytes of the secret, over the decimal timestamp, a full stop and
    the UTF-8 decoded payload bytes, in lowercase hexadecimal. *)
Definition canonical_digest (secret : str) (ts : Z) (raw : bytes) : result str :=
  decoded <- utf8_decode raw ;;
  key <- utf8_encode secret ;;
  msg <- utf8_encode (py_str_int ts ++ lit "." ++ decoded) ;;
  Ok (Hmac.hexdigest key msg).

(** The value of a [key=value] token as the code reads it: what stands
    between the first and the second equals sign. *)
Definition token_value (el : str) : option str := nth_error (split 0x3D el) 1.

(** The first comma-separated token of the header that starts with [key]
    and an equals sign. *)
Definition header_token (key : string) (signature : str) : option str :=
  next_or_none (startswith (lit key ++ [0x3D])) (split 0x2C signature).

Definition header_value (key : string) (signature : str) : option str :=
  match header_token key signature with
  | Some el => token_value el
  | None => None
  end.

(** What [verify_signature] answers, as a function of the two header
    values. *)
Definition verdict (now : Z) (p : payload) (signature secret : str)
    (tolerance : Z) : bool :=
  match header_value "t" signature, header_value "v1" signature with
  | Some ts_text, Some received =>
      match py_int ts_text with
      | Ok ts =>
          if Z.abs (now - ts) >? tolerance then false
          else match (raw <- payload_bytes p ;; canonical_digest secret ts raw) with
               | Ok d => match Hmac.compare_digest received d with
                         | Ok b => b
                         | Err _ => false
                         end
               | Err _ => false
               end
      | Err _ => false
      end
  | _, _ => false
  end.

Definition digit_char (c : Z) : Prop := 0x30 <= c <= 0x39.

Definition lower_hex (c : Z) : Prop := 0x30 <= c <= 0x39 \/ 0x61 <= c <= 0x66.

(** The value of a run of ASCII digits read from the left, starting from
    [a]. *)
Definition digits_from (a : Z) (ds : str) : Z :=
  fold_left (fun a c => 10 * a + (c - 0x30)) ds a.

(** A Unicode scalar value: a code point that is not a surrogate. *)
Definition scalar (c : Z) : Prop :=
  0 <= c < 0xD800 \/ 0xE000 <= c < 0x110000.

(** The error that [parse_event] raises. *)
Definition MalformedPayload : exn :=
  mk_exn ValueError (Some "Invalid webhook payload format"%string).

End Spec.

(** ** jewelmusic_sdk.exceptions, jewelmusic_sdk.resources.base and the
    endpoint methods of jewelmusic_sdk.resources.webhooks

    The HTTP client is the boundary of the model: a request is recorded in
    a trace and answered by the parameter [transport].  An [async def]
    method is a computation [io A] over that trace. *)

Module Sdk.

(** A [Dict[str, Any]]: keys in insertion order, each at most once. *)
Definition dict : Type := list (Py.str * Json.value).

Fixpoint dict_get (k : Py.str) (d : dict) : option Json.value :=
  match d with
  | [] => None
  | (k', v) :: d' => if Py.str_eqb k k' then Some v else dict_get k d'
  end.

(** What a call can raise: a built-in exception of the runtime model, a
    [RecursionError], a [KeyError], the SDK's [ValidationError] with its
    [message] and [validation_errors], or an error of the HTTP client. *)
Inductive error : Type :=
| Builtin (e : Py.exn)
| RecursionError
| KeyError (key : Py.str)
| ValidationError (message : Py.str) (validation_errors : dict)
| ClientError (cls : string) (message : Py.str).

Inductive outcome (A : Type) : Type :=
| Return (a : A)
| Raise (e : error).
Arguments Return {A} a.
Arguments Raise {A} e.

Inductive http_method : Type := GET | POST | PUT | PATCH | DELETE.

(** One call of [HttpClient.request]. *)
Record request : Type := mk_request {
  req_method : http_method;
  req_path : Py.str;
  req_json_data : option dict;
  req_params : option dict
}.

(** [sep.join(parts)] *)
Fixpoint join (sep : Py.str) (parts : list Py.str) : Py.str :=
  match parts with
  | [] => []
  | [x] => x
  | x :: rest => x ++ sep ++ join sep rest
  end.

(** [s.rstrip(c)] for one character [c]. *)
Fixpoint rstrip (c : Z) (s : Py.str) : Py.str :=
  match s with
  | [] => []
  | x :: r =>
      match rstrip c r with
      | [] => if x =? c then [] else [x]
      | r' => x :: r'
      end
  end.

(** [needle in hay] for two [str]. *)
Fixpoint contains (needle hay : Py.str) : bool :=
  Py.startswith needle hay ||
  match hay with
  | [] => false
  | _ :: r => contains needle r
  end.

Definition value_eqb_str (v : Json.value) (s : Py.str) : bool :=
  match v with
  | Json.Str s' => Py.str_eqb s' s
  | _ => false
  end.

(** [key in container], [key] a [str]: a key of a dict, an element of a
    list, a substring of a str; anything else is not iterable. *)
Definition py_in (key : Py.str) (container : Json.value) : outcome bool :=
  match container with
  | Json.Object members =>
      Return (match dict_get key members with Some _ => true | None => false end)
  | Json.Array items => Return (existsb (fun v => value_eqb_str v key) items)
  | Json.Str s => Return (contains key s)
  | _ => Raise (Builtin (Py.raise_cls Py.TypeError))
  end.

(** [container[key]], [key] a [str]: only a dict is indexed by a str. *)
Definition py_subscript (container : Json.value) (key : Py.str) : outcome Json.value :=
  match container with
  | Json.Object members =>
      match dict_get key members with
      | Some v => Return v
      | None => Raise (KeyError key)
      end
  | _ => Raise (Builtin (Py.raise_cls Py.TypeError))
  end.

(** [x or default] for an [Optional[str]]: [None] and the empty string
    are falsy. *)
Definition py_or_str (x : option Py.str) (default : Py.str) : Py.str :=
  match x with
  | Some ((_ :: _) as s) => s
  | _ => default
  end.

(** An [Optional[str]] as a value, and as an f-string field renders it. *)
Definition opt_value (x : option Py.str) : Json.value :=
  match x with
  | Some s => Json.Str s
  | None => Json.Null
  end.

Definition opt_format (x : option Py.str) : Py.str :=
  match x with
  | Some s => s
  | None => Py.lit "None"
  end.

(** Binding the arguments of a call to a method whose parameters after
    [self] are [names], none with a default: [npos] positional arguments
    and the keyword arguments [keywords].  A keyword that names no free
    parameter, or a parameter left without argument, is a [TypeError]. *)
Definition bind_arguments (names : list string) (npos : nat)
    (keywords : list string) : outcome unit :=
  if (npos <=? length names)%nat
     && forallb (fun k => existsb (String.eqb k) (skipn npos names)) keywords
     && (npos + length keywords =? length names)%nat
  then Return tt
  else Raise (Builtin (Py.raise_cls Py.TypeError)).

(** The HTTP client: what it answers to a request, given the requests
    sent before. *)
Definition client : Type := list request -> request -> outcome Json.value.

(** A computation that sends requests: from the trace so far to the trace
    after and the outcome. *)
Definition io (A : Type) : Type := list request -> list request * outcome A.

Definition ret {A : Type} (a : A) : io A := fun trace => (trace, Return a).

Definition lift {A : Type} (o : outcome A) : io A := fun trace => (trace, o).

Definition bind {A B : Type} (m : io A) (k : A -> io B) : io B :=
  fun trace =>
    match m trace with
    | (trace', Return a) => k a trace'
    | (trace', Raise e) => (trace', Raise e)
    end.

Definition send (transport : client) (r : request) : io Json.value :=
  fun trace => (trace ++ [r], transport trace r).

Notation "x <- c1 ;; c2" := (bind c1 (fun x => c2))
  (at level 61, c1 at next level, right associativity).

(** An instance of [BaseResource]: its [http_client] and its
    [base_path]. *)
Record resource : Type := mk_resource {
  http_client : client;
  base_path : Py.str
}.

End Sdk.

Module BaseResource.

Import Sdk.

(** [BaseResource.__init__] *)
Definition init (http_client : client) (base_path : Py.str) : resource :=
  mk_resource http_client (rstrip 0x2F base_path).

(** [BaseResource._build_path] *)
Definition _build_path (self : resource) (path : Py.str) : Py.str :=
  match path with
  | [] => base_path self
  | _ :: _ =>
      let path := if negb (Py.startswith (Py.lit "/") path)
                  then Py.lit "/" ++ path else path in
      base_path self ++ path
  end.

(** [BaseResource.validate_required] *)
Definition validate_required (data : dict) (required_fields : list Py.str)
    : outcome unit :=
  let missing_fields :=
    filter (fun field =>
              match dict_get field data with
              | None => true
              | Some Json.Null => true
              | Some _ => false
              end) required_fields in
  match missing_fields with
  | [] => Return tt
  | _ :: _ =>
      Raise (ValidationError
               (Py.lit "Missing required fields: " ++ join (Py.lit ", ") missing_fields)
               [(Py.lit "missing_fields", Json.Array (List.map Json.Str missing_fields))])
  end.

(** [BaseResource.extract_data] *)
Definition extract_data (response : Json.value) : outcome Json.value :=
  match py_in (Py.lit "data") response with
  | Return true => py_subscript response (Py.lit "data")
  | Return false => Return response
  | Raise e => Raise e
  end.

(** [BaseResource.get], [post], [put], [patch] and [delete] *)
Definition get (self : resource) (path : Py.str) (params : option dict)
    : io Json.value :=
  let full_path := _build_path self path in
  send (http_client self) (mk_request GET full_path None params).

Definition post (self : resource) (path : Py.str) (json_data params : option dict)
    : io Json.value :=
  let full_path := _build_path self path in
  send (http_client self) (mk_request POST full_path json_data params).

Definition put (self : resource) (path : Py.str) (json_data params : option dict)
    : io Json.value :=
  let full_path := _build_path self path in
  send (http_client self) (mk_request PUT full_path json_data params).

Definition patch (self : resource) (path : Py.str) (json_data params : option dict)
    : io Json.value :=
  let full_path := _build_path self path in
  send (http_client self) (mk_request PATCH full_path json_data params).

Definition delete (self : resource) (path : Py.str) (params : option dict)
    : io Json.value :=
  let full_path := _build_path self path in
  send (http_client self) (mk_request DELETE full_path None params).

End BaseResource.

(** The endpoint methods of [WebhooksResource].  The class defines [get]
    and [delete] itself, so on its instances [self.get] and [self.delete]
    are these methods and not those of [BaseResource]; [self.post] and
    [self.put] are inherited.  [depth] is the number of nested calls the
    interpreter still allows. *)
Module WebhooksResource.

Import Sdk.

(** [WebhooksResource.__init__] *)
Definition init (http_client : client) : resource :=
  BaseResource.init http_client (Py.lit "/webhooks").

(** [WebhooksResource.get] *)
Fixpoint get (depth : nat) (self : resource) (webhook_id : option Py.str)
    : io Json.value :=
  match depth with
  | O => lift (Raise RecursionError)
  | S depth' =>
      _ <- lift (BaseResource.validate_required
                   [(Py.lit "webhook_id", opt_value webhook_id)]
                   [Py.lit "webhook_id"]) ;;
      response <- get depth' self (Some (Py.lit "/" ++ opt_format webhook_id)) ;;
      lift (BaseResource.extract_data response)
  end.

(** [WebhooksResource.create] *)
Definition create (self : resource) (webhook_data : dict) : io Json.value :=
  _ <- lift (BaseResource.validate_required webhook_data
               [Py.lit "url"; Py.lit "events"]) ;;
  response <- BaseResource.post self [] (Some webhook_data) None ;;
  lift (BaseResource.extract_data response).

(** [WebhooksResource.update] *)
Definition update (self : resource) (webhook_id : option Py.str) (updates : dict)
    : io Json.value :=
  _ <- lift (BaseResource.validate_required
               [(Py.lit "webhook_id", opt_value webhook_id)]
               [Py.lit "webhook_id"]) ;;
  response <- BaseResource.put self (Py.lit "/" ++ opt_format webhook_id)
                (Some updates) None ;;
  lift (BaseResource.extract_data response).

(** [WebhooksResource.delete] *)
Fixpoint delete (depth : nat) (self : resource) (webhook_id : option Py.str)
    : io Json.value :=
  match depth with
  | O => lift (Raise RecursionError)
  | S depth' =>
      _ <- lift (BaseResource.validate_required
                   [(Py.lit "webhook_id", opt_value webhook_id)]
                   [Py.lit "webhook_id"]) ;;
      response <- delete depth' self (Some (Py.lit "/" ++ opt_format webhook_id)) ;;
      lift (BaseResource.extract_data response)
  end.

(** [WebhooksResource.test] *)
Definition test (self : resource) (webhook_id : option Py.str)
    (event_type : option Py.str) : io Json.value :=
  _ <- lift (BaseResource.validate_required
               [(Py.lit "webhook_id", opt_value webhook_id)]
               [Py.lit "webhook_id"]) ;;
  response <- BaseResource.post self
                (Py.lit "/" ++ opt_format webhook_id ++ Py.lit "/test")
                (Some [(Py.lit "event_type",
                        Json.Str (py_or_str event_type (Py.lit "webhook.test")))])
                None ;;
  lift (BaseResource.extract_data response).

(** [WebhooksResource.list]: the call [self.get('', params=params)] is a
    call of [WebhooksResource.get], whose one parameter is
    [webhook_id]. *)
Definition list (depth : nat) (self : resource) (params : option dict)
    : io Json.value :=
  _ <- lift (bind_arguments ["webhook_id"%string] 1 ["params"%string]) ;;
  response <- get depth self (Some []) ;;
  lift (BaseResource.extract_data response).

End WebhooksResource.

(** ** jewelmusic_sdk.utils.http_client: the rate-limit bookkeeping *)

Module HttpClient.

(** The three rate-limit attributes of an [HttpClient]. *)
Record rate_limit : Type := mk_rate_limit {
  _rate_limit_remaining : option Z;
  _rate_limit_reset : option Z;
  _rate_limit_limit : option Z
}.

(** Response headers as a [Dict[str, str]]. *)
Definition headers : Type := list (Py.str * Py.str).

Fixpoint header_get (k : Py.str) (h : headers) : option Py.str :=
  match h with
  | [] => None
  | (k', v) :: h' => if Py.str_eqb k k' then Some v else header_get k h'
  end.

(** A statement that may assign to the attributes and may raise: the
    attributes after it and how it ended. *)
Definition stmt : Type := rate_limit -> rate_limit * Py.result unit.

Definition seq (a b : stmt) : stmt :=
  fun self =>
    match a self with
    | (self', Py.Ok _) => b self'
    | (self', Py.Err e) => (self', Py.Err e)
    end.

(** [if key in headers: self.attr = int(headers[key])] *)
Definition assign_int (h : headers) (key : string)
    (set : Z -> rate_limit -> rate_limit) : stmt :=
  fun self =>
    match header_get (Py.lit key) h with
    | None => (self, Py.Ok tt)
    | Some text =>
        match Py.py_int text with
        | Py.Ok n => (set n self, Py.Ok tt)
        | Py.Err e => (self, Py.Err e)
        end
    end.

(** [HttpClient._update_rate_limit_info] *)
Definition _update_rate_limit_info (h : headers) : stmt :=
  fun self =>
    let '(self', outcome) :=
      seq (assign_int h "X-RateLimit-Remaining"
             (fun n s => mk_rate_limit (Some n) (_rate_limit_reset s) (_rate_limit_limit s)))
      (seq (assign_int h "X-RateLimit-Limit"
              (fun n s => mk_rate_limit (_rate_limit_remaining s) (_rate_limit_reset s) (Some n)))
           (assign_int h "X-RateLimit-Reset"
              (fun n s => mk_rate_limit (_rate_limit_remaining s) (Some n) (_rate_limit_limit s))))
        self in
    (self', Py.try_except outcome [Py.ValueError; Py.TypeError] (fun _ => Py.Ok tt)).

End HttpClient.

(** ** Specification-level definitions for the resource methods *)

Module SdkSpec.

(** A field that [validate_required] accepts: the key is in the dict and
    its value is not [None]. *)
Definition present (field : Py.str) (data : Sdk.dict) : Prop :=
  exists v, Sdk.dict_get field data = Some v /\ v <> Json.Null.

(** [field not in data or data[field] is None] *)
Definition absent (data : Sdk.dict) (field : Py.str) : bool :=
  match Sdk.dict_get field data with
  | None => true
  | Some Json.Null => true
  | Some _ => false
  end.

(** The integer that a rate-limit header carries: [None] when the header
    is absent, [Some (Err _)] when [int] rejects its value. *)
Definition header_int (h : HttpClient.headers) (key : string)
    : option (Py.result Z) :=
  option_map Py.py_int (HttpClient.header_get (Py.lit key) h).

(** An attribute after an assignment that happens only for a header that
    is present: the new value, or the old one. *)
Definition updated (old : option Z) (new : option (Py.result Z)) : option Z :=
  match new with
  | Some (Py.Ok n) => Some n
  | _ => old
  end.

(** The header is absent or carries an integer. *)
Definition well_formed (new : option (Py.result Z)) : bool :=
  match new with
  | Some (Py.Err _) => false
  | _ => true
  end.

(** The outcome of a method once its one request [r] has been sent from
    the trace [trace]: the client's failure, or the data extracted from its
    response. *)
Definition answered (self : Sdk.resource) (trace : list Sdk.request)
    (r : Sdk.request) : list Sdk.request * Sdk.outcome Json.value :=
  (trace ++ [r],
   match Sdk.http_client self trace r with
   | Sdk.Return response => BaseResource.extract_data response
   | Sdk.Raise e => Sdk.Raise e
   end).

End SdkSpec.

(** ** Specification-level definitions for the signature header *)

Module HeaderSpec.

Import Py Spec.

(** The integer that the header's [t] value denotes, when there is one. *)
Definition parsed_timestamp (signature : str) : option Z :=
  match header_value "t" signature with
  | Some ts_text =>
      match py_int ts_text with
      | Ok ts => Some ts
      | Err _ => None
      end
  | None => None
  end.

(** The bytes of an ASCII text. *)
Definition ascii_bytes (s : str) : bytes := List.map byte_of s.

(** A visible ASCII character: no space, no control character. *)
Definition visible_ascii (c : Z) : Prop := 0x21 <= c <= 0x7E.

End HeaderSpec.

(** * Properties *)

Import Py Webhooks Spec.

Arguments Hmac.hexdigest : simpl never.
Arguments py_int : simpl never.
Arguments py_str_int : simpl never.
Arguments utf8_decode : simpl never.
Arguments utf8_encode : simpl never.

(** ** Known answers of the hash functions *)

Example sha256_constants :
  length Sha256.K = 64%nat /\
  nth 0 Sha256.K 0 = 0x428a2f98 /\ nth 63 Sha256.K 0 = 0xc67178f2 /\
  Sha256.ha Sha256.H0 = 0x6a09e667 /\ Sha256.hh Sha256.H0 = 0x5be0cd19.
Proof. repeat split. Qed.

Example sha256_abc :
  Hmac.hex (Sha256.digest_vals (List.map byte_val (blit "abc")))
  = lit "ba7816bf8f01cfea414140de5dae2223b00361a396177a9cb410ff61f20015ad".
Proof. vm_compute. reflexivity. Qed.

Example sha256_two_blocks :
  Hmac.hex (Sha256.digest_vals (repeat 0x61 119))
  = lit "31eba51c313a5c08226adf18d4a359cfdfd8d2e816b13f4af952f7ea6584dcfb".
Proof. vm_compute. reflexivity. Qed.

Example hmac_rfc4231_case2 :
  Hmac.hexdigest (blit "Jefe") (blit "what do ya want for nothing?")
  = lit "5bdcc146bf60754e6a042426089575c75a003f089d2739839dec58b964ec3843".
Proof. vm_compute. reflexivity. Qed.

Example hmac_long_key :
  Hmac.hexdigest (repeat "k"%byte 100) (blit "msg")
  = lit "bd56a1782c2830e8abc6ed866a57a1230661e650b84c62f7ee3accc5fa5af491".
Proof. vm_compute. reflexivity. Qed.

(** ** Known answers of the runtime model *)

Example int_known_answers :
  List.map py_int [lit " 12 "; lit "+5"; lit "-5"; lit "007"; lit "1_000"]
  = [Ok 12; Ok 5; Ok (-5); Ok 7; Ok 1000] /\
  List.map py_int [lit ""; lit "- 5"; lit "1__0"; lit "12a"; lit "1.0"]
  = repeat (Err (raise_cls ValueError)) 5.
Proof. split; vm_compute; reflexivity. Qed.

Example utf8_known_answers :
  utf8_decode [xc3; xa9; xe2; x82; xac; xf0; x9f; x98; x80]
  = Ok [0xE9; 0x20AC; 0x1F600] /\
  utf8_encode [0xE9; 0x20AC; 0x1F600]
  = Ok [xc3; xa9; xe2; x82; xac; xf0; x9f; x98; x80] /\
  List.map utf8_decode [[xff]; [xc0; x80]; [xed; xa0; x80]; [xf4; x90; x80; x80]; [xe2; x82]]
  = repeat (Err (raise_cls UnicodeDecodeError)) 5 /\
  utf8_encode [0xD800] = Err (raise_cls UnicodeEncodeError).
Proof. repeat split; vm_compute; reflexivity. Qed.

Example split_known_answers :
  split 0x2C (lit "t=1,v1=ab") = [lit "t=1"; lit "v1=ab"] /\
  split 0x2C (lit "") = [lit ""] /\
  split 0x3D (lit "t=1=2") = [lit "t"; lit "1"; lit "2"].
Proof. repeat split. Qed.

Example json_known_answers :
  Json.loads (Json.text "{'a': [1, -2.5e3, true, null], 'a': 'x'}")
  = Ok (Json.Object [(lit "a", Json.Str (lit "x"))]) /\
  Json.loads (Json.text "[1, -2.5e3, true, null, '\u00e9']")
  = Ok (Json.Array [Json.Int 1; Json.Float (lit "-2.5e3"); Json.Bool true;
                    Json.Null; Json.Str [0xE9]]) /\
  List.map Json.loads [lit ""; lit "01"; lit "[1,]"; lit "nul"; lit "1 2"]
  = repeat (Err (raise_cls JSONDecodeError)) 5.
Proof. repeat split; vm_compute; reflexivity. Qed.

(** ** Strings *)

Lemma str_eqb_eq (a b : str) : str_eqb a b = true <-> a = b.
Proof.
  revert b; induction a as [|x a IH]; intros [|y b]; simpl; split;
    try congruence; try reflexivity.
  - intros H. apply andb_true_iff in H as [Hx Hr].
    apply Z.eqb_eq in Hx. apply IH in Hr. congruence.
  - intros H. injection H as -> ->. rewrite Z.eqb_refl. simpl.
    apply IH. reflexivity.
Qed.

Lemma startswith_app (p s : str) : startswith p (p ++ s) = true.
Proof.
  induction p as [|x p IH]; simpl; [reflexivity|].
  rewrite Z.eqb_refl. exact IH.
Qed.

Lemma startswith_inv (p s : str) :
  startswith p s = true -> exists r, s = p ++ r.
Proof.
  revert s; induction p as [|x p IH]; intros s H; simpl in *.
  - exists s. reflexivity.
  - destruct s as [|y s]; [discriminate|].
    apply andb_true_iff in H as [Hx Hr]. apply Z.eqb_eq in Hx.
    destruct (IH _ Hr) as [r ->]. exists r. congruence.
Qed.

Lemma split_not_nil (sep : Z) (s : str) : split sep s <> [].
Proof.
  destruct s as [|c r]; simpl; [discriminate|].
  destruct (c =? sep); [discriminate|].
  destruct (split sep r); discriminate.
Qed.

Lemma split_no_sep (sep : Z) (a : str) : ~ In sep a -> split sep a = [a].
Proof.
  induction a as [|c a IH]; simpl; intros H; [reflexivity|].
  destruct (Z.eqb_spec c sep) as [->|Hne]; [tauto|].
  rewrite IH by tauto. reflexivity.
Qed.

Lemma split_app (sep : Z) (a b : str) :
  ~ In sep a -> split sep (a ++ sep :: b) = a :: split sep b.
Proof.
  induction a as [|c a IH]; simpl; intros H.
  - rewrite Z.eqb_refl. reflexivity.
  - destruct (Z.eqb_spec c sep) as [->|Hne]; [tauto|].
    rewrite IH by tauto. reflexivity.
Qed.

(** A token that starts with [key=] has a value: [el.split('=')[1]] is in
    range. *)
Lemma token_value_some (key el : str) :
  ~ In 0x3D key -> startswith (key ++ [0x3D]) el = true ->
  exists v, token_value el = Some v.
Proof.
  intros Hk H. apply startswith_inv in H as [r ->].
  unfold token_value. rewrite <- app_assoc. simpl.
  rewrite split_app by exact Hk. simpl.
  destruct (split 0x3D r) eqn:E; [exfalso; eapply split_not_nil; eauto|].
  eexists. reflexivity.
Qed.

Lemma header_token_starts (key : string) (sig el : str) :
  header_token key sig = Some el -> startswith (lit key ++ [0x3D]) el = true.
Proof.
  unfold header_token, next_or_none. intros H.
  apply find_some in H. tauto.
Qed.

Lemma header_token_truthy (key : string) (sig el : str) :
  header_token key sig = Some el -> py_not (Some el) = false.
Proof.
  intros H. apply header_token_starts in H.
  apply startswith_inv in H as [r ->].
  destruct (lit key); reflexivity.
Qed.

Lemma getitem_token_value (el : str) :
  getitem (split 0x3D el) 1 =
  match token_value el with
  | Some v => Ok v
  | None => Err (raise_cls IndexError)
  end.
Proof. reflexivity. Qed.

(** ** Exceptions *)

Lemma utf8_decode_raises (b : bytes) (e : exn) :
  utf8_decode b = Err e -> e = raise_cls UnicodeDecodeError.
Proof.
  unfold utf8_decode. destruct (utf8_decode_vals _); congruence.
Qed.

Lemma utf8_encode_raises (s : str) (e : exn) :
  utf8_encode s = Err e -> e = raise_cls UnicodeEncodeError.
Proof.
  unfold utf8_encode. destruct (utf8_encode_vals _); congruence.
Qed.

Lemma py_int_raises (s : str) (e : exn) :
  py_int s = Err e -> e = raise_cls ValueError.
Proof.
  unfold py_int. destruct (take_sign (lstrip s)) as [neg [|c2 r2]]; [congruence|].
  destruct (decimal_value c2); [|congruence].
  destruct (scan_digits _ _) as [[v rest]|]; [|congruence].
  destruct (lstrip rest); congruence.
Qed.

Lemma compare_digest_raises (a b : str) (e : exn) :
  Hmac.compare_digest a b = Err e -> e = raise_cls TypeError.
Proof.
  unfold Hmac.compare_digest. destruct (_ && _); congruence.
Qed.

Lemma canonical_digest_raises (secret : str) (ts : Z) (raw : bytes) (e : exn) :
  canonical_digest secret ts raw = Err e ->
  existsb (issubclass (exn_cls e)) [ValueError; TypeError; AttributeError] = true.
Proof.
  unfold canonical_digest, bind.
  destruct (utf8_decode raw) eqn:E1.
  - destruct (utf8_encode secret) eqn:E2.
    + destruct (utf8_encode (_ ++ _)) eqn:E3; [discriminate|].
      intros H; injection H as <-. apply utf8_encode_raises in E3. subst. reflexivity.
    + intros H; injection H as <-. apply utf8_encode_raises in E2. subst. reflexivity.
  - intros H; injection H as <-. apply utf8_decode_raises in E1. subst. reflexivity.
Qed.

(** ** The answer of [verify_signature] *)

(** The body of [verify_signature] never leaves its [try] block with an
    exception: the answer is the boolean [verdict]. *)
Lemma verify_signature_verdict (now : Z) (p : payload) (sig secret : str) (tol : Z) :
  verify_signature now p sig secret tol = Ok (verdict now p sig secret tol).
Proof.
  unfold verify_signature, verdict, header_value.
  change (next_or_none (startswith (lit "t=")) (split 0x2C sig))
    with (header_token "t" sig).
  change (next_or_none (startswith (lit "v1=")) (split 0x2C sig))
    with (header_token "v1" sig).
  destruct (header_token "t" sig) as [te|] eqn:Et; [|reflexivity].
  destruct (header_token "v1" sig) as [he|] eqn:Eh.
  2:{ rewrite (header_token_truthy _ _ _ Et). simpl.
      destruct (token_value te); reflexivity. }
  rewrite (header_token_truthy _ _ _ Et), (header_token_truthy _ _ _ Eh).
  cbn [orb attr_split bind].
  rewrite !getitem_token_value.
  destruct (token_value_some (lit "t") te) as [tv ->];
    [cbv; intuition discriminate | eapply header_token_starts; eauto |].
  destruct (token_value_some (lit "v1") he) as [hv ->];
    [cbv; intuition discriminate | eapply header_token_starts; eauto |].
  cbn [bind].
  destruct (py_int tv) as [ts|e] eqn:Ei.
  2:{ apply py_int_raises in Ei. subst. reflexivity. }
  cbn [bind].
  destruct (Z.abs (now - ts) >? tol); [reflexivity|].
  change (match p with PStr s => utf8_encode s | PBytes b => Ok b end)
    with (payload_bytes p).
  destruct (payload_bytes p) as [raw|e] eqn:Ep.
  2:{ destruct p; simpl in Ep; [|discriminate].
      apply utf8_encode_raises in Ep. subst. reflexivity. }
  cbn [bind].
  unfold canonical_digest.
  destruct (utf8_decode raw) as [decoded|e] eqn:E1.
  2:{ apply utf8_decode_raises in E1. subst. reflexivity. }
  cbn [bind].
  destruct (utf8_encode secret) as [key|e] eqn:E2.
  2:{ apply utf8_encode_raises in E2. subst. reflexivity. }
  cbn [bind].
  destruct (utf8_encode (py_str_int ts ++ lit "." ++ decoded)) as [msg|e] eqn:E3.
  2:{ apply utf8_encode_raises in E3. subst. reflexivity. }
  cbn [bind].
  destruct (Hmac.compare_digest hv (Hmac.hexdigest key msg)) as [b|e] eqn:Ec;
    [reflexivity|].
  apply compare_digest_raises in Ec. subst. reflexivity.
Qed.

(** ** Integers and their decimal text *)

Lemma digit_char_cases (c : Z) :
  digit_char c ->
  c = 48 \/ c = 49 \/ c = 50 \/ c = 51 \/ c = 52 \/
  c = 53 \/ c = 54 \/ c = 55 \/ c = 56 \/ c = 57.
Proof. unfold digit_char. lia. Qed.

Ltac digit_cases H :=
  apply digit_char_cases in H;
  repeat (destruct H as [H|H]; [subst|]); [..|subst].

Lemma decimal_value_ascii (c : Z) :
  digit_char c -> decimal_value c = Some (c - 0x30).
Proof. intros H. digit_cases H; reflexivity. Qed.

Lemma digit_not_space (c : Z) : digit_char c -> int_space c = false.
Proof. intros H. digit_cases H; reflexivity. Qed.

Lemma take_sign_digit (c : Z) (r : str) :
  digit_char c -> take_sign (c :: r) = (false, c :: r).
Proof. intros H. digit_cases H; reflexivity. Qed.

Lemma scan_digits_ascii (ds : str) (a : Z) :
  Forall digit_char ds -> scan_digits a ds = Some (digits_from a ds, []).
Proof.
  intros H. revert a. induction H as [|c ds Hc _ IH]; intros a; simpl.
  - reflexivity.
  - rewrite (decimal_value_ascii c Hc). apply IH.
Qed.

Lemma dec_digits_S (f : nat) (n : Z) (acc : str) :
  dec_digits (S f) n acc =
  if n / 10 =? 0 then (0x30 + n mod 10) :: acc
  else dec_digits f (n / 10) ((0x30 + n mod 10) :: acc).
Proof. reflexivity. Qed.

Lemma last_digit_char (n : Z) : digit_char (0x30 + n mod 10).
Proof. unfold digit_char. pose proof (Z.mod_pos_bound n 10). lia. Qed.

Lemma dec_digits_spec (fuel : nat) :
  forall n acc, 0 <= n < 2 ^ Z.of_nat (S fuel) ->
  exists ds, dec_digits (S fuel) n acc = ds ++ acc /\ ds <> [] /\
             Forall digit_char ds /\ digits_from 0 ds = n.
Proof.
  induction fuel as [|f IH]; intros n acc Hn; rewrite dec_digits_S.
  - change (2 ^ Z.of_nat 1) with 2 in Hn.
    exists [0x30 + n mod 10]. repeat split; try discriminate.
    + destruct (n / 10 =? 0); reflexivity.
    + constructor; [apply last_digit_char|constructor].
    + unfold digits_from. cbn [fold_left]. rewrite Z.mod_small; lia.
  - destruct (Z.eqb_spec (n / 10) 0) as [E|E].
    + exists [0x30 + n mod 10]. repeat split; try discriminate.
      * constructor; [apply last_digit_char|constructor].
      * unfold digits_from. cbn [fold_left].
        pose proof (Z.div_mod n 10). lia.
    + destruct (IH (n / 10) ((0x30 + n mod 10) :: acc)) as (ds & E1 & _ & Hd & Hv).
      { split; [apply Z.div_pos; lia|].
        apply Z.div_lt_upper_bound; [lia|].
        replace (Z.of_nat (S (S f))) with (Z.succ (Z.of_nat (S f))) in Hn by lia.
        rewrite Z.pow_succ_r in Hn by lia. lia. }
      exists (ds ++ [0x30 + n mod 10]). repeat split.
      * rewrite E1, <- app_assoc. reflexivity.
      * destruct ds; discriminate.
      * apply Forall_app. split; [exact Hd|].
        constructor; [apply last_digit_char|constructor].
      * unfold digits_from in *. rewrite fold_left_app, Hv. cbn [fold_left].
        pose proof (Z.div_mod n 10). lia.
Qed.

Lemma log2_fuel (n : Z) : 0 <= n -> 0 <= n < 2 ^ Z.of_nat (S (Z.to_nat (Z.log2 n))).
Proof.
  intros Hn. split; [exact Hn|].
  rewrite Nat2Z.inj_succ, Z2Nat.id by apply Z.log2_nonneg.
  destruct (Z.eq_dec n 0) as [->|Hz]; [reflexivity|].
  apply Z.log2_spec. lia.
Qed.

(** The text of an integer: an optional minus sign and a non-empty run of
    ASCII digits whose value is the integer. *)
Lemma py_str_int_shape (z : Z) :
  exists ds, ds <> [] /\ Forall digit_char ds /\ digits_from 0 ds = Z.abs z /\
             py_str_int z = (if z <? 0 then [0x2D] else []) ++ ds.
Proof.
  unfold py_str_int. destruct (Z.ltb_spec z 0) as [Hz|Hz].
  - destruct (dec_digits_spec (Z.to_nat (Z.log2 (- z))) (- z) [])
      as (ds & E & Hne & Hd & Hv); [apply log2_fuel; lia|].
    exists ds. rewrite E, app_nil_r. repeat split; auto. lia.
  - destruct (dec_digits_spec (Z.to_nat (Z.log2 z)) z [])
      as (ds & E & Hne & Hd & Hv); [apply log2_fuel; lia|].
    exists ds. rewrite E, app_nil_r. repeat split; auto. lia.
Qed.

(** [int(str(z)) == z] *)
Lemma py_int_str (z : Z) : py_int (py_str_int z) = Ok z.
Proof.
  destruct (py_str_int_shape z) as (ds & Hne & Hd & Hv & ->).
  destruct ds as [|c r]; [congruence|].
  inversion Hd as [|? ? Hc Hr]; subst.
  unfold py_int.
  assert (Hscan : scan_digits (c - 0x30) r = Some (Z.abs z, [])).
  { rewrite (scan_digits_ascii r _ Hr). f_equal. f_equal.
    rewrite <- Hv. unfold digits_from. simpl. reflexivity. }
  destruct (Z.ltb_spec z 0) as [Hz|Hz]; cbn [app lstrip].
  - change (int_space 0x2D) with false. cbn [take_sign].
    rewrite (decimal_value_ascii c Hc), Hscan. simpl. f_equal. lia.
  - rewrite (digit_not_space c Hc), (take_sign_digit c r Hc).
    rewrite (decimal_value_ascii c Hc), Hscan. simpl. f_equal. lia.
Qed.

Lemma py_str_int_chars (z : Z) :
  Forall (fun c => c = 0x2D \/ digit_char c) (py_str_int z).
Proof.
  destruct (py_str_int_shape z) as (ds & _ & Hd & _ & ->).
  apply Forall_app. split.
  - destruct (z <? 0); repeat constructor.
  - eapply Forall_impl; [|exact Hd]. auto.
Qed.

(** ** UTF-8 *)

Ltac bool_hyps :=
  repeat match goal with
  | H : _ && _ = true |- _ => apply andb_true_iff in H as [? ?]
  | H : (_ <=? _) = true |- _ => apply Z.leb_le in H
  | H : (_ <? _) = true |- _ => apply Z.ltb_lt in H
  | H : (_ <? _) = false |- _ => apply Z.ltb_ge in H
  | H : (_ =? _) = true |- _ => apply Z.eqb_eq in H
  | H : (_ =? _) = false |- _ => apply Z.eqb_neq in H
  end.

Lemma byte_val_range (b : byte) : 0 <= byte_val b < 256.
Proof.
  unfold byte_val. pose proof (Byte.to_N_bounded b). lia.
Qed.

Lemma option_map_cons_some (c : Z) (o : option str) (s : str) :
  option_map (cons c) o = Some s -> exists s', o = Some s' /\ s = c :: s'.
Proof.
  destruct o as [s'|]; simpl; [|discriminate].
  intros H; injection H as <-. eauto.
Qed.

(** The strict decoder yields scalar values only. *)
Lemma utf8_decode_vals_scalar (n : nat) :
  forall bs, (length bs <= n)%nat -> Forall (fun b => 0 <= b) bs ->
  forall s, utf8_decode_vals bs = Some s -> Forall scalar s.
Proof.
  induction n as [|n IH]; intros bs Hlen Hpos s H.
  - destruct bs; simpl in *; [injection H as <-; constructor | lia].
  - destruct bs as [|b0 r0]; [injection H as <-; constructor|].
    inversion Hpos as [|? ? Hb0 Hr0]; subst. simpl in Hlen.
    cbn [utf8_decode_vals] in H.
    destruct (b0 <? 0x80) eqn:C1.
    { apply option_map_cons_some in H as (s' & E & ->). bool_hyps.
      constructor; [unfold scalar; lia|]. apply (IH r0); auto. lia. }
    destruct (b0 <? 0xC2) eqn:C2; [discriminate|].
    destruct (b0 <? 0xE0) eqn:C3.
    { destruct r0 as [|b1 r1]; [discriminate|].
      destruct (is_cont b1) eqn:K1; [|discriminate]. unfold is_cont in K1.
      apply option_map_cons_some in H as (s' & E & ->). bool_hyps.
      inversion Hr0; subst. simpl in Hlen.
      constructor; [unfold scalar; lia|]. apply (IH r1); auto. lia. }
    destruct (b0 <? 0xF0) eqn:C4.
    { destruct r0 as [|b1 [|b2 r2]]; try discriminate.
      destruct (_ && _) eqn:K in H; [|discriminate]. unfold is_cont in K.
      apply option_map_cons_some in H as (s' & E & ->).
      inversion Hr0 as [|? ? ? Hr1]; subst. inversion Hr1; subst.
      simpl in Hlen.
      constructor; [|apply (IH r2); auto; lia].
      destruct (b0 =? 0xE0) eqn:A1; destruct (b0 =? 0xED) eqn:A2;
        bool_hyps; unfold scalar; lia. }
    destruct (b0 <? 0xF5) eqn:C5; [|discriminate].
    destruct r0 as [|b1 [|b2 [|b3 r3]]]; try discriminate.
    destruct (_ && _) eqn:K in H; [|discriminate]. unfold is_cont in K.
    apply option_map_cons_some in H as (s' & E & ->).
    inversion Hr0 as [|? ? ? Hr1]; subst. inversion Hr1 as [|? ? ? Hr2]; subst.
    inversion Hr2; subst. simpl in Hlen.
    constructor; [|apply (IH r3); auto; lia].
    destruct (b0 =? 0xF0) eqn:A1; destruct (b0 =? 0xF4) eqn:A2;
      bool_hyps; unfold scalar; lia.
Qed.

Lemma utf8_decode_scalar (b : bytes) (s : str) :
  utf8_decode b = Ok s -> Forall scalar s.
Proof.
  unfold utf8_decode.
  destruct (utf8_decode_vals (List.map byte_val b)) as [s'|] eqn:E; [|discriminate].
  intros H; injection H as <-.
  eapply utf8_decode_vals_scalar; [apply le_n| |exact E].
  apply Forall_forall. intros x Hx. apply in_map_iff in Hx as (y & <- & _).
  apply byte_val_range.
Qed.

Lemma utf8_encode_cp_scalar (c : Z) :
  scalar c -> exists bs, utf8_encode_cp c = Some bs.
Proof.
  unfold scalar, utf8_encode_cp. intros H.
  destruct (c <? 0) eqn:C0; [bool_hyps; lia|].
  destruct (c <? 0x80); [eauto|].
  destruct (c <? 0x800); [eauto|].
  destruct ((0xD800 <=? c) && (c <=? 0xDFFF)) eqn:C1; [bool_hyps; lia|].
  destruct (c <? 0x10000); [eauto|].
  destruct (c <? 0x110000) eqn:C2; [eauto|bool_hyps; lia].
Qed.

(** A text of scalar values has a UTF-8 form. *)
Lemma utf8_encode_scalar (s : str) :
  Forall scalar s -> exists b, utf8_encode s = Ok b.
Proof.
  intros H. unfold utf8_encode.
  assert (exists vs, utf8_encode_vals s = Some vs) as [vs ->].
  { induction H as [|c s Hc _ [vs IH]]; simpl; [eauto|].
    destruct (utf8_encode_cp_scalar c Hc) as [bs ->]. rewrite IH. eauto. }
  eauto.
Qed.

Lemma digit_scalar (c : Z) : c = 0x2D \/ digit_char c -> scalar c.
Proof. unfold digit_char, scalar. lia. Qed.

(** The string that is signed can always be encoded when the payload was
    decoded. *)
Lemma signed_payload_encodable (ts : Z) (raw : bytes) (decoded : str) :
  utf8_decode raw = Ok decoded ->
  exists msg, utf8_encode (py_str_int ts ++ lit "." ++ decoded) = Ok msg.
Proof.
  intros H. apply utf8_encode_scalar.
  apply Forall_app. split.
  - eapply Forall_impl; [|apply py_str_int_chars]. apply digit_scalar.
  - apply Forall_app. split.
    + repeat constructor. unfold scalar. simpl. lia.
    + eapply utf8_decode_scalar; eauto.
Qed.

(** ** The digest and its text *)

Lemma state_bytes_shape (s : Sha256.state) :
  length (Sha256.state_bytes s) = 32%nat /\
  Forall (fun b => 0 <= b < 256) (Sha256.state_bytes s).
Proof.
  unfold Sha256.state_bytes, Sha256.be_bytes.
  cbn [flat_map seq rev app List.map length]. split; [reflexivity|].
  repeat constructor; apply Z.mod_pos_bound; lia.
Qed.

Lemma hex_digit_lower (n : Z) : 0 <= n < 16 -> lower_hex (Hmac.hex_digit n).
Proof.
  unfold lower_hex, Hmac.hex_digit. intros H.
  destruct (Z.ltb_spec n 10); lia.
Qed.

Lemma hex_shape (bs : list Z) :
  Forall (fun b => 0 <= b < 256) bs ->
  length (Hmac.hex bs) = (2 * length bs)%nat /\ Forall lower_hex (Hmac.hex bs).
Proof.
  induction 1 as [|b bs Hb _ [IHl IHf]]; cbn [Hmac.hex flat_map app length].
  - split; [reflexivity|constructor].
  - fold (Hmac.hex bs). split; [rewrite IHl; lia|].
    constructor; [|constructor; [|exact IHf]]; apply hex_digit_lower.
    + split; [apply Z.div_pos; lia | apply Z.div_lt_upper_bound; lia].
    + apply Z.mod_pos_bound. lia.
Qed.

(** [hexdigest] is 64 lowercase hexadecimal digits. *)
Lemma hexdigest_shape (key msg : bytes) :
  length (Hmac.hexdigest key msg) = 64%nat /\
  Forall lower_hex (Hmac.hexdigest key msg).
Proof.
  unfold Hmac.hexdigest, Hmac.digest_vals.
  set (outer := _ ++ Sha256.digest_vals _).
  unfold Sha256.digest_vals.
  set (st := Sha256.blocks _ _ _).
  destruct (state_bytes_shape st) as [Hl Hr].
  destruct (hex_shape _ Hr) as [Hl' Hf]. rewrite Hl in Hl'. tauto.
Qed.

Lemma lower_hex_ascii (d : str) :
  Forall lower_hex d -> forallb Hmac.is_ascii d = true.
Proof.
  induction 1 as [|c d Hc _ IH]; simpl; [reflexivity|].
  rewrite IH, andb_true_r. unfold Hmac.is_ascii, lower_hex in *.
  apply andb_true_iff. split; [apply Z.leb_le | apply Z.ltb_lt]; lia.
Qed.

Lemma str_eqb_refl (a : str) : str_eqb a a = true.
Proof. apply str_eqb_eq. reflexivity. Qed.

Lemma compare_digest_same (d : str) :
  Forall lower_hex d -> Hmac.compare_digest d d = Ok true.
Proof.
  intros H. unfold Hmac.compare_digest.
  rewrite (lower_hex_ascii d H), str_eqb_refl. reflexivity.
Qed.

Lemma compare_digest_true (a b : str) :
  Hmac.compare_digest a b = Ok true -> a = b.
Proof.
  unfold Hmac.compare_digest. destruct (_ && _); [|discriminate].
  intros H. injection H as H. apply str_eqb_eq. exact H.
Qed.

Lemma canonical_digest_shape (secret : str) (ts : Z) (raw : bytes) (d : str) :
  canonical_digest secret ts raw = Ok d ->
  length d = 64%nat /\ Forall lower_hex d.
Proof.
  unfold canonical_digest, bind.
  destruct (utf8_decode raw); [|discriminate].
  destruct (utf8_encode secret); [|discriminate].
  destruct (utf8_encode (_ ++ _)); [|discriminate].
  intros H; injection H as <-. apply hexdigest_shape.
Qed.

(** A decodable payload and an encodable secret have a digest. *)
Lemma canonical_digest_defined (secret : str) (ts : Z) (raw : bytes)
    (decoded : str) (key : bytes) :
  utf8_decode raw = Ok decoded -> utf8_encode secret = Ok key ->
  exists d, canonical_digest secret ts raw = Ok d.
Proof.
  intros Hd Hk. unfold canonical_digest. rewrite Hd, Hk. cbn [bind].
  destruct (signed_payload_encodable ts raw decoded Hd) as [msg ->].
  cbn [bind]. eauto.
Qed.

(** ** The header that [create_signature] writes *)

Lemma no_comma_in_int (z : Z) : ~ In 0x2C (py_str_int z).
Proof.
  intros H. pose proof (py_str_int_chars z) as F.
  rewrite Forall_forall in F. apply F in H. unfold digit_char in H. lia.
Qed.

Lemma no_equals_in_int (z : Z) : ~ In 0x3D (py_str_int z).
Proof.
  intros H. pose proof (py_str_int_chars z) as F.
  rewrite Forall_forall in F. apply F in H. unfold digit_char in H. lia.
Qed.

Lemma no_comma_in_hex (d : str) : Forall lower_hex d -> ~ In 0x2C d.
Proof.
  intros F H. rewrite Forall_forall in F. apply F in H. unfold lower_hex in H. lia.
Qed.

Lemma no_equals_in_hex (d : str) : Forall lower_hex d -> ~ In 0x3D d.
Proof.
  intros F H. rewrite Forall_forall in F. apply F in H. unfold lower_hex in H. lia.
Qed.

(** The header is cut at commas into tokens; here, two of them. *)
Lemma split_two_tokens (a b : str) :
  ~ In 0x2C a -> ~ In 0x2C b -> split 0x2C (a ++ 0x2C :: b) = [a; b].
Proof.
  intros Ha Hb. rewrite split_app by exact Ha.
  rewrite split_no_sep by exact Hb. reflexivity.
Qed.

Lemma token_value_plain (key v : str) :
  ~ In 0x3D key -> ~ In 0x3D v -> token_value (key ++ 0x3D :: v) = Some v.
Proof.
  intros Hk Hv. unfold token_value.
  rewrite split_app by exact Hk. rewrite split_no_sep by exact Hv. reflexivity.
Qed.

Lemma header_values_of_signature (ts : Z) (d : str) :
  Forall lower_hex d ->
  let h := lit "t=" ++ py_str_int ts ++ lit ",v1=" ++ d in
  header_value "t" h = Some (py_str_int ts) /\ header_value "v1" h = Some d.
Proof.
  intros Hd h.
  assert (Hh : h = (lit "t=" ++ py_str_int ts) ++ 0x2C :: (lit "v1=" ++ d)).
  { unfold h. rewrite app_assoc. reflexivity. }
  assert (Hs : split 0x2C h = [lit "t=" ++ py_str_int ts; lit "v1=" ++ d]).
  { rewrite Hh. apply split_two_tokens.
    - intros [H|[H|H]]; [discriminate..|]. exact (no_comma_in_int _ H).
    - intros [H|[H|[H|H]]]; [discriminate..|]. exact (no_comma_in_hex _ Hd H). }
  unfold header_value, header_token, next_or_none. rewrite Hs. split.
  - change (lit "t" ++ [0x3D]) with (lit "t=").
    cbn [find]. rewrite startswith_app.
    apply (token_value_plain (lit "t")); [cbv; intuition discriminate|].
    apply no_equals_in_int.
  - change (find (startswith (lit "v1" ++ [0x3D]))
                 [lit "t=" ++ py_str_int ts; lit "v1=" ++ d])
      with (if startswith (lit "v1=") (lit "v1=" ++ d)
            then Some (lit "v1=" ++ d) else None).
    rewrite startswith_app.
    apply (token_value_plain (lit "v1")); [cbv; intuition discriminate|].
    apply no_equals_in_hex. exact Hd.
Qed.

(** What [create_signature] returns, in terms of the canonical digest. *)
Lemma create_signature_canonical (now : Z) (p : payload) (secret : str)
    (timestamp : option Z) :
  create_signature now p secret timestamp =
  (raw <- payload_bytes p ;;
   d <- canonical_digest secret (py_or_int timestamp now) raw ;;
   Ok (lit "t=" ++ py_str_int (py_or_int timestamp now) ++ lit ",v1=" ++ d)).
Proof.
  unfold create_signature, canonical_digest.
  change (match p with PStr s => utf8_encode s | PBytes b => Ok b end)
    with (payload_bytes p).
  destruct (payload_bytes p) as [raw|e]; [|reflexivity]. cbn [bind].
  destruct (utf8_decode raw) as [decoded|e]; [|reflexivity]. cbn [bind].
  destruct (utf8_encode secret) as [key|e]; [|reflexivity]. cbn [bind].
  destruct (utf8_encode (_ ++ _)) as [msg|e]; reflexivity.
Qed.

(** A header written by [create_signature] is judged by its timestamp
    alone: the answer of [verify_signature] is whether the header's
    timestamp lies within the tolerance of the verifier's clock. *)
Lemma sign_then_verify (now_s now : Z) (p : payload) (secret : str)
    (timestamp : option Z) (tol : Z) (h : str) :
  create_signature now_s p secret timestamp = Ok h ->
  verify_signature now p h secret tol
  = Ok (negb (Z.abs (now - py_or_int timestamp now_s) >? tol)).
Proof.
  rewrite create_signature_canonical, verify_signature_verdict.
  destruct (payload_bytes p) as [raw|e] eqn:Ep; [|discriminate]. cbn [bind].
  destruct (canonical_digest _ _ raw) as [d|e] eqn:Ed; [|discriminate].
  cbn [bind]. intros H.
  replace h with (lit "t=" ++ py_str_int (py_or_int timestamp now_s) ++ lit ",v1=" ++ d)
    by congruence.
  clear H. destruct (canonical_digest_shape _ _ _ _ Ed) as [_ Hd].
  destruct (header_values_of_signature (py_or_int timestamp now_s) d Hd) as [Ht Hv].
  unfold verdict. rewrite Ht, Hv, py_int_str.
  destruct (Z.abs _ >? tol); [reflexivity|].
  rewrite Ep. cbn [bind]. rewrite Ed, (compare_digest_same d Hd). reflexivity.
Qed.

(** [create_signature] returns a header for a payload that decodes and a
    secret that encodes. *)
Lemma create_signature_defined (now : Z) (p : payload) (secret : str)
    (timestamp : option Z) (raw : bytes) (decoded : str) (key : bytes) :
  payload_bytes p = Ok raw -> utf8_decode raw = Ok decoded ->
  utf8_encode secret = Ok key ->
  exists d, canonical_digest secret (py_or_int timestamp now) raw = Ok d /\
            create_signature now p secret timestamp
            = Ok (lit "t=" ++ py_str_int (py_or_int timestamp now) ++ lit ",v1=" ++ d).
Proof.
  intros Hp Hd Hk.
  destruct (canonical_digest_defined secret (py_or_int timestamp now) raw decoded key Hd Hk)
    as [d Ed].
  exists d. split; [exact Ed|].
  rewrite create_signature_canonical, Hp. cbn [bind]. rewrite Ed. reflexivity.
Qed.

(** [verify_signature] answers [True] exactly when every check passes:
    both tokens are there, the timestamp is an integer within the
    tolerance, and the received value is the canonical digest. *)
Lemma verify_signature_true_iff (now : Z) (p : payload) (sig secret : str) (tol : Z) :
  verify_signature now p sig secret tol = Ok true <->
  exists ts_text ts received raw,
    header_value "t" sig = Some ts_text /\ py_int ts_text = Ok ts /\
    header_value "v1" sig = Some received /\
    Z.abs (now - ts) <= tol /\
    payload_bytes p = Ok raw /\
    canonical_digest secret ts raw = Ok received.
Proof.
  rewrite verify_signature_verdict. unfold verdict. split.
  - intros H.
    destruct (header_value "t" sig) as [ts_text|] eqn:Et; [|discriminate].
    destruct (header_value "v1" sig) as [received|] eqn:Ev; [|discriminate].
    destruct (py_int ts_text) as [ts|] eqn:Ei; [|discriminate].
    destruct (Z.gtb_spec (Z.abs (now - ts)) tol); [discriminate|].
    destruct (payload_bytes p) as [raw|] eqn:Ep; [|discriminate].
    cbn [bind] in H.
    destruct (canonical_digest secret ts raw) as [d|] eqn:Ed; [|discriminate].
    destruct (Hmac.compare_digest received d) as [[|]|] eqn:Ec; try discriminate.
    apply compare_digest_true in Ec. subst d.
    exists ts_text, ts, received, raw. repeat split; auto.
  - intros (ts_text & ts & received & raw & -> & -> & -> & Hw & -> & Hd).
    destruct (Z.gtb_spec (Z.abs (now - ts)) tol); [lia|].
    cbn [bind]. rewrite Hd.
    destruct (canonical_digest_shape _ _ _ _ Hd) as [_ Hx].
    rewrite (compare_digest_same received Hx). reflexivity.
Qed.

(** ** Claims about [verify_signature] and [create_signature] *)





(** C9: for every payload byte sequence that is not valid UTF-8,
    [verify_signature] returns [False] and raises nothing, whatever the
    header, the secret and the tolerance. *)
Theorem verify_signature_fails_closed_on_bad_utf8
    (now : Z) (raw : bytes) (sig secret : str) (tol : Z) (e : exn) :
  utf8_decode raw = Err e ->
  verify_signature now (PBytes raw) sig secret tol = Ok false.
Proof.
  intros Hd. rewrite verify_signature_verdict. unfold verdict.
  cbn [payload_bytes bind]. unfold canonical_digest. rewrite Hd. cbn [bind].
  destruct (header_value "t" sig); [|reflexivity].
  destruct (header_value "v1" sig); [|reflexivity].
  destruct (py_int _); [|reflexivity].
  destruct (_ >? _); reflexivity.
Qed.

Lemma verify_signature_fails_closed_on_bad_utf8_witness :
  utf8_decode [xc3; x28] = Err (raise_cls UnicodeDecodeError) /\
  verify_signature 1700000000 (PBytes [xc3; x28])
    (lit "t=1700000000,v1=00") (lit "whsec_test") 300 = Ok false.
Proof.
  split; [vm_compute; reflexivity|].
  apply (verify_signature_fails_closed_on_bad_utf8 1700000000 [xc3; x28]
           (lit "t=1700000000,v1=00") (lit "whsec_test") 300
           (raise_cls UnicodeDecodeError)).
  vm_compute. reflexivity.
Defined.

(** C4, as stated, fails: a header with a second [v1=] token and a second
    [t=] token is accepted.  Payload [{}], secret [whsec_test], clock
    1700000000, tolerance 300; the first two tokens are what
    [create_signature] writes for the timestamp 1700000000. *)
Lemma duplicate_tokens_accepted :
  verify_signature 1700000000 (PBytes (blit "{}"))
    (lit "t=1700000000,v1=35495024f4ef3f94e5a93e22221544c4b75e9a42300cd965ab81cb85cd994e91,v1=00,t=1")
    (lit "whsec_test") 300
  = Ok true.
Proof. vm_compute. reflexivity. Qed.

(** C4, amended: [verify_signature] cuts the header at commas and reads
    the first token that starts with [t=] and the first token that starts
    with [v1=]; when either is absent it returns [False] without raising;
    every other token, a later duplicate included, is ignored, so that two
    headers with the same first [t=] token and the same first [v1=] token
    get the same answer; in particular the order of the [t=] token and the
    [v1=] token does not affect the result. *)
Theorem header_first_tokens
    (now : Z) (p : payload) (secret : str) (tol : Z) :
  (forall sig,
     header_token "t" sig = None \/ header_token "v1" sig = None ->
     verify_signature now p sig secret tol = Ok false) /\
  (forall sig sig',
     header_token "t" sig = header_token "t" sig' ->
     header_token "v1" sig = header_token "v1" sig' ->
     verify_signature now p sig secret tol = verify_signature now p sig' secret tol) /\
  (forall t_tok v_tok,
     startswith (lit "t=") t_tok = true -> startswith (lit "v1=") v_tok = true ->
     ~ In 0x2C t_tok -> ~ In 0x2C v_tok ->
     verify_signature now p (t_tok ++ lit "," ++ v_tok) secret tol
     = verify_signature now p (v_tok ++ lit "," ++ t_tok) secret tol).
Proof.
  assert (Hsame : forall sig sig',
     header_token "t" sig = header_token "t" sig' ->
     header_token "v1" sig = header_token "v1" sig' ->
     verify_signature now p sig secret tol = verify_signature now p sig' secret tol).
  { intros sig sig' Ht Hv. rewrite !verify_signature_verdict.
    unfold verdict, header_value. rewrite Ht, Hv. reflexivity. }
  split; [|split; [exact Hsame|]].
  - intros sig. rewrite verify_signature_verdict. unfold verdict, header_value.
    intros [-> | ->]; [reflexivity|].
    destruct (header_token "t" sig); [destruct (token_value _)|]; reflexivity.
  - intros t_tok v_tok Ht Hv Hct Hcv.
    assert (Hvt : startswith (lit "t=") v_tok = false).
    { apply startswith_inv in Hv as [r ->]. reflexivity. }
    assert (Htv : startswith (lit "v1=") t_tok = false).
    { apply startswith_inv in Ht as [r ->]. reflexivity. }
    apply Hsame; unfold header_token, next_or_none;
      change (lit "," ++ v_tok) with (0x2C :: v_tok);
      change (lit "," ++ t_tok) with (0x2C :: t_tok);
      rewrite !split_two_tokens by assumption;
      change (lit "t" ++ [0x3D]) with (lit "t=");
      change (lit "v1" ++ [0x3D]) with (lit "v1=");
      cbn [find]; rewrite ?Ht, ?Hv, ?Hvt, ?Htv; reflexivity.
Qed.

Lemma header_first_tokens_witness :
  verify_signature 1700000000 (PBytes (blit "{}"))
    (lit "v1=35495024f4ef3f94e5a93e22221544c4b75e9a42300cd965ab81cb85cd994e91"
     ++ lit "," ++ lit "t=1700000000")
    (lit "whsec_test") 300
  = Ok true.
Proof.
  destruct (header_first_tokens 1700000000 (PBytes (blit "{}")) (lit "whsec_test") 300)
    as (_ & _ & Hswap).
  rewrite <- (Hswap (lit "t=1700000000")
    (lit "v1=35495024f4ef3f94e5a93e22221544c4b75e9a42300cd965ab81cb85cd994e91")).
  - vm_compute. reflexivity.
  - reflexivity.
  - reflexivity.
  - vm_compute. intuition discriminate.
  - vm_compute. intuition discriminate.
Defined.






(** C8, at the explicit timestamp zero: [create_signature] computes
    [timestamp or int(time.time())], so a timestamp of 0 is treated as an
    omitted one and the header carries the clock reading instead of
    [t=0].  With clock 1700000000, payload [{}] and secret [whsec_test]
    the header for the explicit timestamp 0 is the header of the
    default. *)
Theorem create_signature_zero_timestamp :
  (forall now p secret,
     create_signature now p secret (Some 0) = create_signature now p secret None) /\
  create_signature 1700000000 (PBytes (blit "{}")) (lit "whsec_test") (Some 0)
  = Ok (lit "t=1700000000,v1=35495024f4ef3f94e5a93e22221544c4b75e9a42300cd965ab81cb85cd994e91").
Proof.
  split; [reflexivity|]. vm_compute. reflexivity.
Qed.

(** The format of the header for every other explicit timestamp, and for
    the default: [t=], the decimal timestamp, [,v1=] and 64 lowercase
    hexadecimal digits. *)
Lemma create_signature_format (now : Z) (p : payload) (raw : bytes)
    (decoded : str) (secret : str) (key : bytes) :
  payload_bytes p = Ok raw -> utf8_decode raw = Ok decoded ->
  utf8_encode secret = Ok key ->
  (forall T, T <> 0 ->
     exists d, length d = 64%nat /\ Forall lower_hex d /\
               create_signature now p secret (Some T)
               = Ok (lit "t=" ++ py_str_int T ++ lit ",v1=" ++ d)) /\
  (exists d, length d = 64%nat /\ Forall lower_hex d /\
             create_signature now p secret None
             = Ok (lit "t=" ++ py_str_int now ++ lit ",v1=" ++ d)).
Proof.
  intros Hp Hd Hk. split.
  - intros T HT.
    destruct (create_signature_defined now p secret (Some T) raw decoded key Hp Hd Hk)
      as (d & Ed & Hs).
    cbn [py_or_int] in Ed, Hs.
    destruct (Z.eqb_spec T 0) as [|_]; [contradiction|].
    destruct (canonical_digest_shape _ _ _ _ Ed). eauto.
  - destruct (create_signature_defined now p secret None raw decoded key Hp Hd Hk)
      as (d & Ed & Hs).
    destruct (canonical_digest_shape _ _ _ _ Ed). eauto.
Qed.

(** ** Claims about [parse_event] *)


Section ParseEventProperties.

Variable json_loads : str -> result Json.value.

(** What [parse_event] does, case by case: the [except] clause turns the
    decoder's [UnicodeDecodeError] and the classes it lists into the one
    [ValueError]; anything else that [json.loads] raises passes through. *)
Lemma parse_event_cases (p : payload) :
  parse_event json_loads p =
  match payload_text p with
  | Err _ => Err MalformedPayload
  | Ok text =>
      match json_loads text with
      | Ok v => Ok v
      | Err e =>
          if existsb (issubclass (exn_cls e))
               [JSONDecodeError; UnicodeDecodeError; AttributeError]
          then Err MalformedPayload
          else Err e
      end
  end.
Proof.
  unfold parse_event.
  change (match p with PBytes b => utf8_decode b | PStr s => Ok s end)
    with (payload_text p).
  destruct (payload_text p) as [text|e] eqn:Ep.
  - cbn [bind]. destruct (json_loads text); reflexivity.
  - destruct p as [s|b]; [discriminate|]. simpl in Ep.
    apply utf8_decode_raises in Ep. subst. reflexivity.
Qed.

(** C10: [parse_event] validates nothing about the shape of the event:
    whenever the payload decodes as UTF-8 and [json.loads] returns a value
    for the text, [parse_event] returns that very value, whichever kind of
    value it is (a string, a number, a boolean, null, an array, or an
    object with or without the fields [id], [type], [timestamp] and
    [data]). *)
Theorem parse_event_returns_decoded_value
    (p : payload) (text : str) (v : Json.value) :
  payload_text p = Ok text -> json_loads text = Ok v ->
  parse_event json_loads p = Ok v.
Proof.
  intros Hp Hj. rewrite parse_event_cases, Hp, Hj. reflexivity.
Qed.

Hypothesis json_loads_decode_error :
  forall text e, json_loads text = Err e -> exn_cls e = JSONDecodeError.


End ParseEventProperties.

Lemma parse_event_returns_decoded_value_witness :
  parse_event Json.loads (PBytes (Json.btext "'track.uploaded'"))
  = Ok (Json.Str (lit "track.uploaded")) /\
  parse_event Json.loads (PBytes (blit "42")) = Ok (Json.Int 42) /\
  parse_event Json.loads (PBytes (blit "true")) = Ok (Json.Bool true) /\
  parse_event Json.loads (PBytes (blit "null")) = Ok Json.Null /\
  parse_event Json.loads (PBytes (blit "[1, 2]"))
  = Ok (Json.Array [Json.Int 1; Json.Int 2]) /\
  parse_event Json.loads (PBytes (Json.btext "{'kind': 'x'}"))
  = Ok (Json.Object [(lit "kind", Json.Str (lit "x"))]).
Proof.
  split; [|split; [|split; [|split; [|split]]]].
  - apply (parse_event_returns_decoded_value Json.loads _ (Json.text "'track.uploaded'"));
      vm_compute; reflexivity.
  - apply (parse_event_returns_decoded_value Json.loads _ (lit "42"));
      vm_compute; reflexivity.
  - apply (parse_event_returns_decoded_value Json.loads _ (lit "true"));
      vm_compute; reflexivity.
  - apply (parse_event_returns_decoded_value Json.loads _ (lit "null"));
      vm_compute; reflexivity.
  - apply (parse_event_returns_decoded_value Json.loads _ (lit "[1, 2]"));
      vm_compute; reflexivity.
  - apply (parse_event_returns_decoded_value Json.loads _ (Json.text "{'kind': 'x'}"));
      vm_compute; reflexivity.
Defined.


(** * Further properties of the code around the claims *)

Import SdkSpec HeaderSpec.

(** ** [BaseResource]: paths and required fields *)

Lemma rstrip_snoc (c : Z) (s : str) : Sdk.rstrip c (s ++ [c]) = Sdk.rstrip c s.
Proof.
  induction s as [|x s IH]; simpl.
  - rewrite Z.eqb_refl. reflexivity.
  - rewrite IH. reflexivity.
Qed.

Lemma rstrip_repeat (c : Z) (s : str) (n : nat) :
  Sdk.rstrip c (s ++ repeat c n) = Sdk.rstrip c s.
Proof.
  revert s. induction n as [|n IH]; intros s; simpl.
  - rewrite app_nil_r. reflexivity.
  - change (c :: repeat c n) with ([c] ++ repeat c n).
    rewrite app_assoc, IH. apply rstrip_snoc.
Qed.

Lemma rstrip_suffix (c : Z) (s : str) :
  exists n, s = Sdk.rstrip c s ++ repeat c n.
Proof.
  induction s as [|x s [n IH]]; simpl.
  - exists 0%nat. reflexivity.
  - destruct (Sdk.rstrip c s) as [|y r] eqn:E.
    + destruct (Z.eqb_spec x c) as [->|Hne].
      * exists (S n). simpl. f_equal. exact IH.
      * exists n. simpl. f_equal. exact IH.
    + exists n. simpl. f_equal. exact IH.
Qed.

Lemma rstrip_last (c : Z) (s : str) :
  Sdk.rstrip c s = [] \/ exists r z, Sdk.rstrip c s = r ++ [z] /\ z <> c.
Proof.
  induction s as [|x s IH]; simpl; [left; reflexivity|].
  destruct (Sdk.rstrip c s) as [|y r] eqn:E.
  - destruct (Z.eqb_spec x c) as [->|Hne]; [left; reflexivity|].
    right. exists [], x. split; [reflexivity|exact Hne].
  - right. destruct IH as [IH|(r' & z & IH & Hz)]; [discriminate|].
    exists (x :: r'), z. rewrite IH. split; [reflexivity|exact Hz].
Qed.

(** X1: a resource built by [BaseResource.__init__] has a base path that
    is the given one without its trailing slashes and nothing else: it
    never ends with a slash, however many the argument carries, and the
    number of trailing slashes does not change the paths that
    [_build_path] builds.  A path without a leading slash is built as if
    it had one, and the empty path is the base path itself. *)
Theorem build_path_normalises
    (http : Sdk.client) (base path : str) (n : nat) :
  let self := BaseResource.init http base in
  (exists k, base = Sdk.base_path self ++ repeat 0x2F k) /\
  (forall r, Sdk.base_path self <> r ++ [0x2F]) /\
  BaseResource._build_path (BaseResource.init http (base ++ repeat 0x2F n)) path
  = BaseResource._build_path self path /\
  BaseResource._build_path self [] = Sdk.base_path self /\
  (path <> [] -> startswith (lit "/") path = false ->
   BaseResource._build_path self path = Sdk.base_path self ++ lit "/" ++ path /\
   BaseResource._build_path self (lit "/" ++ path)
   = BaseResource._build_path self path).
Proof.
  intros self. unfold self, BaseResource.init. cbn [Sdk.base_path].
  split; [apply rstrip_suffix|]. split; [|split; [|split]].
  - intros r Hr.
    destruct (rstrip_last 0x2F base) as [E|(r' & z & E & Hz)];
      rewrite E in Hr.
    + destruct r; discriminate.
    + apply app_inj_tail in Hr as [_ Hr]. congruence.
  - unfold BaseResource._build_path. cbn [Sdk.base_path].
    rewrite rstrip_repeat. reflexivity.
  - reflexivity.
  - intros Hne Hs. unfold BaseResource._build_path. cbn [Sdk.base_path].
    destruct path as [|c p]; [contradiction|].
    rewrite Hs. cbn [negb]. split; [reflexivity|].
    change (lit "/" ++ c :: p) with (0x2F :: c :: p).
    change (startswith (lit "/") (0x2F :: c :: p)) with true.
    reflexivity.
Qed.

Lemma build_path_normalises_witness :
  BaseResource._build_path
    (BaseResource.init (fun _ _ => Sdk.Return Json.Null) (lit "/webhooks//"))
    (lit "abc/test")
  = lit "/webhooks/abc/test".
Proof.
  destruct (build_path_normalises (fun _ _ => Sdk.Return Json.Null)
              (lit "/webhooks") (lit "abc/test") 2) as (_ & _ & Hb & _ & Hp).
  change (lit "/webhooks//") with (lit "/webhooks" ++ repeat 0x2F 2).
  rewrite Hb.
  destruct Hp as [Hp _]; [discriminate | reflexivity |].
  rewrite Hp. reflexivity.
Defined.

Lemma absent_iff (data : Sdk.dict) (field : str) :
  absent data field = true <-> ~ present field data.
Proof.
  unfold absent, present. destruct (Sdk.dict_get field data) as [v|].
  - destruct v; split; intros H; try discriminate; try reflexivity;
      try (exfalso; apply H; eexists; split; [reflexivity|discriminate]).
    intros (v & Hv & Hn). injection Hv as <-. contradiction.
  - split; [|reflexivity]. intros _ (v & Hv & _). discriminate.
Qed.

Lemma absent_false (data : Sdk.dict) (field : str) :
  absent data field = false -> present field data.
Proof.
  unfold absent, present. destruct (Sdk.dict_get field data) as [v|];
    [|discriminate].
  destruct v; intros H; try discriminate;
    eexists; (split; [reflexivity|discriminate]).
Qed.

Lemma validate_required_cases (data : Sdk.dict) (required_fields : list str) :
  BaseResource.validate_required data required_fields =
  match filter (absent data) required_fields with
  | [] => Sdk.Return tt
  | (_ :: _) as missing =>
      Sdk.Raise (Sdk.ValidationError
        (lit "Missing required fields: " ++ Sdk.join (lit ", ") missing)
        [(lit "missing_fields", Json.Array (List.map Json.Str missing))])
  end.
Proof.
  unfold BaseResource.validate_required.
  change (fun field : Py.str =>
            match Sdk.dict_get field data with
            | None => true
            | Some Json.Null => true
            | Some _ => false
            end) with (absent data).
  destruct (filter (absent data) required_fields); reflexivity.
Qed.

Lemma filter_nil_iff {A : Type} (f : A -> bool) (l : list A) :
  filter f l = [] <-> Forall (fun x => f x = false) l.
Proof.
  induction l as [|x l IH]; simpl.
  - split; constructor.
  - destruct (f x) eqn:E; split; intros H.
    + discriminate.
    + inversion H; congruence.
    + constructor; [exact E | apply IH; exact H].
    + inversion H; subst. apply IH. assumption.
Qed.

(** X2: [validate_required] returns exactly when every required field is
    a key of the data with a value that is not [None].  Otherwise it
    raises a [ValidationError], and nothing else, that reports the required
    fields that are absent or [None], in the order of [required_fields]:
    they are its [missing_fields], and its message is
    [Missing required fields: ] followed by them, separated by a comma and
    a space. *)
Theorem validate_required_spec (data : Sdk.dict) (required_fields : list str) :
  (forall field, absent data field = true <-> ~ present field data) /\
  (BaseResource.validate_required data required_fields = Sdk.Return tt <->
   Forall (fun field => present field data) required_fields) /\
  (forall e,
     BaseResource.validate_required data required_fields = Sdk.Raise e ->
     let missing := filter (absent data) required_fields in
     missing <> [] /\
     e = Sdk.ValidationError
           (lit "Missing required fields: " ++ Sdk.join (lit ", ") missing)
           [(lit "missing_fields", Json.Array (List.map Json.Str missing))]).
Proof.
  split; [apply absent_iff|].
  rewrite validate_required_cases. split.
  - assert (Hall : Forall (fun field => present field data) required_fields <->
                   filter (absent data) required_fields = []).
    { rewrite filter_nil_iff. split; apply Forall_impl; intros field H.
      - destruct (absent data field) eqn:E; [|reflexivity].
        apply absent_iff in E. contradiction.
      - apply absent_false. exact H. }
    rewrite Hall.
    destruct (filter (absent data) required_fields); split; intros H;
      try reflexivity; discriminate.
  - intros e He missing. subst missing.
    destruct (filter (absent data) required_fields); [discriminate|].
    split; [discriminate|congruence].
Qed.

Lemma validate_required_spec_witness :
  BaseResource.validate_required
    [(lit "url", Json.Str (lit "https://example.org/hook"));
     (lit "events", Json.Array [Json.Str (lit "track.uploaded")])]
    [lit "url"; lit "events"]
  = Sdk.Return tt.
Proof.
  apply (validate_required_spec
           [(lit "url", Json.Str (lit "https://example.org/hook"));
            (lit "events", Json.Array [Json.Str (lit "track.uploaded")])]
           [lit "url"; lit "events"]).
  repeat constructor; eexists; (split; [reflexivity|discriminate]).
Defined.

(** ** The endpoint methods of [WebhooksResource] *)

Lemma validate_webhook_id (webhook_id : option str) :
  BaseResource.validate_required
    [(lit "webhook_id", Sdk.opt_value webhook_id)] [lit "webhook_id"]
  = match webhook_id with
    | Some _ => Sdk.Return tt
    | None =>
        Sdk.Raise (Sdk.ValidationError
          (lit "Missing required fields: webhook_id")
          [(lit "missing_fields", Json.Array [Json.Str (lit "webhook_id")])])
    end.
Proof. destruct webhook_id; reflexivity. Qed.

Lemma build_path_slash (self : Sdk.resource) (path : str) :
  BaseResource._build_path self (lit "/" ++ path)
  = Sdk.base_path self ++ lit "/" ++ path.
Proof. reflexivity. Qed.

(** X3: [create] checks the webhook data before it sends anything.  When
    [url] and [events] are both present and not [None], it sends exactly
    one request, a POST to the resource's base path with the webhook data
    as JSON body and no query parameters, and returns the data extracted
    from the response (or raises what the client raises).  When either is
    missing or [None], it raises [ValidationError] and sends no request. *)
Theorem create_validates_then_posts
    (self : Sdk.resource) (webhook_data : Sdk.dict) (trace : list Sdk.request) :
  (present (lit "url") webhook_data -> present (lit "events") webhook_data ->
   WebhooksResource.create self webhook_data trace
   = answered self trace
       (Sdk.mk_request Sdk.POST (Sdk.base_path self) (Some webhook_data) None)) /\
  (~ (present (lit "url") webhook_data /\ present (lit "events") webhook_data) ->
   exists message errors,
     WebhooksResource.create self webhook_data trace
     = (trace, Sdk.Raise (Sdk.ValidationError message errors))).
Proof.
  unfold WebhooksResource.create, Sdk.bind, Sdk.lift.
  rewrite validate_required_cases. cbn [filter].
  split.
  - intros Hu He.
    destruct (absent webhook_data (lit "url")) eqn:Eu;
      [apply absent_iff in Eu; contradiction|].
    destruct (absent webhook_data (lit "events")) eqn:Ee;
      [apply absent_iff in Ee; contradiction|].
    unfold BaseResource.post, Sdk.send, answered. cbn [BaseResource._build_path].
    destruct (Sdk.http_client self trace _); reflexivity.
  - intros Hn.
    destruct (absent webhook_data (lit "url")) eqn:Eu;
      destruct (absent webhook_data (lit "events")) eqn:Ee;
      try (eexists; eexists; reflexivity).
    exfalso. apply Hn. split; apply absent_false; assumption.
Qed.

Lemma create_validates_then_posts_witness :
  WebhooksResource.create
    (WebhooksResource.init
       (fun _ _ => Sdk.Return (Json.Object [(lit "data", Json.Object [(lit "id", Json.Str (lit "wh_1"))])])))
    [(lit "url", Json.Str (lit "https://example.org/hook"));
     (lit "events", Json.Array [Json.Str (lit "track.uploaded")])]
    []
  = ([Sdk.mk_request Sdk.POST (lit "/webhooks")
        (Some [(lit "url", Json.Str (lit "https://example.org/hook"));
               (lit "events", Json.Array [Json.Str (lit "track.uploaded")])])
        None],
     Sdk.Return (Json.Object [(lit "id", Json.Str (lit "wh_1"))])).
Proof.
  refine (eq_trans (proj1 (create_validates_then_posts _ _ _) _ _) _).
  - eexists. split; [reflexivity|discriminate].
  - eexists. split; [reflexivity|discriminate].
  - reflexivity.
Defined.

(** X4: [update] sends exactly one request when the identifier is a
    string, the empty string included: a PUT to the base path, a slash and
    the identifier, with the updates as JSON body.  With the identifier
    [None] it raises [ValidationError] and sends nothing. *)
Theorem update_puts_to_id
    (self : Sdk.resource) (updates : Sdk.dict) (trace : list Sdk.request) :
  (forall webhook_id,
     WebhooksResource.update self (Some webhook_id) updates trace
     = answered self trace
         (Sdk.mk_request Sdk.PUT (Sdk.base_path self ++ lit "/" ++ webhook_id)
            (Some updates) None)) /\
  WebhooksResource.update self None updates trace
  = (trace, Sdk.Raise (Sdk.ValidationError
       (lit "Missing required fields: webhook_id")
       [(lit "missing_fields", Json.Array [Json.Str (lit "webhook_id")])])).
Proof.
  unfold WebhooksResource.update, Sdk.bind, Sdk.lift. split.
  - intros webhook_id. rewrite validate_webhook_id.
    unfold BaseResource.put, Sdk.send, answered. rewrite build_path_slash.
    cbn [Sdk.opt_format].
    destruct (Sdk.http_client self trace _); reflexivity.
  - rewrite validate_webhook_id. reflexivity.
Qed.

(** X5: [test] posts to the base path, a slash, the identifier and
    [/test], with the one-field body [event_type]; an event type that is
    [None] or the empty string is replaced by [webhook.test], any other is
    sent as given.  With the identifier [None] it raises [ValidationError]
    and sends nothing. *)
Theorem test_posts_event_type
    (self : Sdk.resource) (trace : list Sdk.request) :
  (forall webhook_id event_type,
     WebhooksResource.test self (Some webhook_id) event_type trace
     = answered self trace
         (Sdk.mk_request Sdk.POST
            (Sdk.base_path self ++ lit "/" ++ webhook_id ++ lit "/test")
            (Some [(lit "event_type",
                    Json.Str (match event_type with
                              | None | Some [] => lit "webhook.test"
                              | Some given => given
                              end))])
            None)) /\
  (forall event_type,
     WebhooksResource.test self None event_type trace
     = (trace, Sdk.Raise (Sdk.ValidationError
          (lit "Missing required fields: webhook_id")
          [(lit "missing_fields", Json.Array [Json.Str (lit "webhook_id")])]))).
Proof.
  unfold WebhooksResource.test, Sdk.bind, Sdk.lift. split.
  - intros webhook_id event_type. rewrite validate_webhook_id.
    unfold BaseResource.post, Sdk.send, answered. rewrite build_path_slash.
    cbn [Sdk.opt_format].
    replace (Sdk.py_or_str event_type (lit "webhook.test"))
      with (match event_type with
            | None | Some [] => lit "webhook.test"
            | Some given => given
            end)
      by (destruct event_type as [[|c r]|]; reflexivity).
    destruct (Sdk.http_client self trace _); reflexivity.
  - intros event_type. rewrite validate_webhook_id. reflexivity.
Qed.



(** X8: [WebhooksResource.list] never returns and never sends a request:
    its call [self.get('', params=params)] reaches the class's own [get],
    which has no parameter [params], and raises [TypeError] before
    anything else happens. *)
Theorem list_raises_type_error
    (depth : nat) (self : Sdk.resource) (params : option Sdk.dict)
    (trace : list Sdk.request) :
  WebhooksResource.list depth self params trace
  = (trace, Sdk.Raise (Sdk.Builtin (raise_cls TypeError))).
Proof. reflexivity. Qed.

(** ** The UTF-8 codec, both ways *)

Ltac cond_true H := rewrite (proj2 (Z.ltb_lt _ _)) by H.
Ltac cond_false H := rewrite (proj2 (Z.ltb_ge _ _)) by H.

Lemma byte_val_of (z : Z) : 0 <= z < 256 -> byte_val (byte_of z) = z.
Proof.
  intros Hz. unfold byte_val, byte_of. rewrite Z.mod_small by exact Hz.
  destruct (Byte.of_N (Z.to_N z)) as [b|] eqn:E.
  - apply Byte.to_of_N in E. rewrite E. lia.
  - apply Byte.of_N_None_iff in E. lia.
Qed.

Lemma byte_of_val (b : byte) : byte_of (byte_val b) = b.
Proof.
  unfold byte_of. rewrite Z.mod_small by apply byte_val_range.
  unfold byte_val. rewrite N2Z.id, Byte.of_to_N. reflexivity.
Qed.

Lemma map_byte_of_val (raw : bytes) : List.map byte_of (List.map byte_val raw) = raw.
Proof.
  induction raw as [|b raw IH]; simpl; [reflexivity|].
  rewrite byte_of_val, IH. reflexivity.
Qed.

Lemma map_byte_val_of (vs : list Z) :
  Forall (fun v => 0 <= v < 256) vs -> List.map byte_val (List.map byte_of vs) = vs.
Proof.
  induction 1 as [|v vs Hv _ IH]; simpl; [reflexivity|].
  rewrite byte_val_of by exact Hv. rewrite IH. reflexivity.
Qed.

Lemma encode_cp_1 (b0 : Z) :
  0 <= b0 < 0x80 -> utf8_encode_cp b0 = Some [b0].
Proof.
  intros H. unfold utf8_encode_cp.
  cond_false ltac:(lia). cond_true ltac:(lia). reflexivity.
Qed.

Lemma encode_cp_2 (b0 b1 : Z) :
  0xC2 <= b0 < 0xE0 -> 0x80 <= b1 <= 0xBF ->
  utf8_encode_cp ((b0 - 0xC0) * 64 + (b1 - 0x80)) = Some [b0; b1].
Proof.
  intros H0 H1. unfold utf8_encode_cp.
  cond_false ltac:(lia). cond_false ltac:(lia). cond_true ltac:(lia).
  repeat f_equal; Z.div_mod_to_equations; lia.
Qed.

Lemma encode_cp_3 (b0 b1 b2 : Z) :
  0xE0 <= b0 < 0xF0 ->
  (if b0 =? 0xE0 then 0xA0 else 0x80) <= b1 <= (if b0 =? 0xED then 0x9F else 0xBF) ->
  0x80 <= b2 <= 0xBF ->
  utf8_encode_cp ((b0 - 0xE0) * 4096 + (b1 - 0x80) * 64 + (b2 - 0x80))
  = Some [b0; b1; b2].
Proof.
  intros H0 H1 H2. unfold utf8_encode_cp.
  set (c := (b0 - 0xE0) * 4096 + (b1 - 0x80) * 64 + (b2 - 0x80)).
  assert (Hc : 0x800 <= c < 0x10000 /\ (c < 0xD800 \/ 0xDFFF < c)).
  { unfold c. destruct (Z.eqb_spec b0 0xE0); destruct (Z.eqb_spec b0 0xED); lia. }
  cond_false ltac:(lia). cond_false ltac:(lia). cond_false ltac:(lia).
  replace ((0xD800 <=? c) && (c <=? 0xDFFF)) with false.
  2:{ symmetry. apply andb_false_iff.
      destruct Hc as [_ [Hc|Hc]]; [left; apply Z.leb_gt | right; apply Z.leb_gt]; lia. }
  cond_true ltac:(lia).
  assert (H1' : 0x80 <= b1 <= 0xBF)
    by (destruct (b0 =? 0xE0); destruct (b0 =? 0xED); lia).
  unfold c. repeat f_equal; Z.div_mod_to_equations; lia.
Qed.

Lemma encode_cp_4 (b0 b1 b2 b3 : Z) :
  0xF0 <= b0 < 0xF5 ->
  (if b0 =? 0xF0 then 0x90 else 0x80) <= b1 <= (if b0 =? 0xF4 then 0x8F else 0xBF) ->
  0x80 <= b2 <= 0xBF -> 0x80 <= b3 <= 0xBF ->
  utf8_encode_cp ((b0 - 0xF0) * 262144 + (b1 - 0x80) * 4096
                  + (b2 - 0x80) * 64 + (b3 - 0x80))
  = Some [b0; b1; b2; b3].
Proof.
  intros H0 H1 H2 H3. unfold utf8_encode_cp.
  set (c := (b0 - 0xF0) * 262144 + (b1 - 0x80) * 4096
            + (b2 - 0x80) * 64 + (b3 - 0x80)).
  assert (Hc : 0x10000 <= c < 0x110000).
  { unfold c. destruct (Z.eqb_spec b0 0xF0); destruct (Z.eqb_spec b0 0xF4); lia. }
  cond_false ltac:(lia). cond_false ltac:(lia). cond_false ltac:(lia).
  replace ((0xD800 <=? c) && (c <=? 0xDFFF)) with false.
  2:{ symmetry. apply andb_false_iff. right. apply Z.leb_gt. lia. }
  cond_false ltac:(lia). cond_true ltac:(lia).
  assert (H1' : 0x80 <= b1 <= 0xBF)
    by (destruct (b0 =? 0xF0); destruct (b0 =? 0xF4); lia).
  unfold c. repeat f_equal; Z.div_mod_to_equations; lia.
Qed.

(** Encoding what the decoder returned gives the bytes back. *)
Lemma utf8_encode_decode_vals (n : nat) :
  forall bs, (length bs <= n)%nat -> Forall (fun b => 0 <= b) bs ->
  forall s, utf8_decode_vals bs = Some s -> utf8_encode_vals s = Some bs.
Proof.
  induction n as [|n IH]; intros bs Hlen Hpos s H.
  - destruct bs; simpl in *; [injection H as <-; reflexivity | lia].
  - destruct bs as [|b0 r0]; [injection H as <-; reflexivity|].
    inversion Hpos as [|? ? Hb0 Hr0]; subst. simpl in Hlen.
    cbn [utf8_decode_vals] in H.
    destruct (b0 <? 0x80) eqn:C1.
    { apply option_map_cons_some in H as (s' & E & ->). bool_hyps.
      cbn [utf8_encode_vals]. rewrite encode_cp_1 by lia.
      rewrite (IH r0) with (s := s') by (auto; lia). reflexivity. }
    destruct (b0 <? 0xC2) eqn:C2; [discriminate|].
    destruct (b0 <? 0xE0) eqn:C3.
    { destruct r0 as [|b1 r1]; [discriminate|].
      destruct (is_cont b1) eqn:K1; [|discriminate]. unfold is_cont in K1.
      apply option_map_cons_some in H as (s' & E & ->). bool_hyps.
      inversion Hr0; subst. simpl in Hlen.
      cbn [utf8_encode_vals]. rewrite encode_cp_2 by lia.
      rewrite (IH r1) with (s := s') by (auto; lia). reflexivity. }
    destruct (b0 <? 0xF0) eqn:C4.
    { destruct r0 as [|b1 [|b2 r2]]; try discriminate.
      destruct (_ && _) eqn:K in H; [|discriminate]. unfold is_cont in K.
      apply option_map_cons_some in H as (s' & E & ->).
      inversion Hr0 as [|? ? ? Hr1]; subst. inversion Hr1; subst.
      simpl in Hlen. bool_hyps.
      cbn [utf8_encode_vals]. rewrite encode_cp_3 by lia.
      rewrite (IH r2) with (s := s') by (auto; lia). reflexivity. }
    destruct (b0 <? 0xF5) eqn:C5; [|discriminate].
    destruct r0 as [|b1 [|b2 [|b3 r3]]]; try discriminate.
    destruct (_ && _) eqn:K in H; [|discriminate]. unfold is_cont in K.
    apply option_map_cons_some in H as (s' & E & ->).
    inversion Hr0 as [|? ? ? Hr1]; subst. inversion Hr1 as [|? ? ? Hr2]; subst.
    inversion Hr2; subst. simpl in Hlen. bool_hyps.
    cbn [utf8_encode_vals]. rewrite encode_cp_4 by lia.
    rewrite (IH r3) with (s := s') by (auto; lia). reflexivity.
Qed.

Lemma utf8_encode_decode (raw : bytes) (s : str) :
  utf8_decode raw = Ok s -> utf8_encode s = Ok raw.
Proof.
  unfold utf8_decode, utf8_encode.
  destruct (utf8_decode_vals (List.map byte_val raw)) as [s'|] eqn:E; [|discriminate].
  intros H; injection H as <-.
  assert (Hpos : Forall (fun b => 0 <= b) (List.map byte_val raw)).
  { apply Forall_forall. intros x Hx. apply in_map_iff in Hx as (y & <- & _).
    apply byte_val_range. }
  rewrite (utf8_encode_decode_vals _ (List.map byte_val raw) (le_n _) Hpos s' E).
  rewrite map_byte_of_val. reflexivity.
Qed.

Ltac forall_range :=
  repeat (apply Forall_cons; [Z.div_mod_to_equations; lia|]); apply Forall_nil.

Lemma encode_cp_cases (c : Z) (bs : list Z) :
  utf8_encode_cp c = Some bs ->
  (0 <= c < 0x80 /\ bs = [c]) \/
  (0x80 <= c < 0x800 /\ bs = [0xC0 + c / 64; 0x80 + c mod 64]) \/
  (0x800 <= c < 0x10000 /\ (c < 0xD800 \/ 0xDFFF < c) /\
   bs = [0xE0 + c / 4096; 0x80 + (c / 64) mod 64; 0x80 + c mod 64]) \/
  (0x10000 <= c < 0x110000 /\
   bs = [0xF0 + c / 262144; 0x80 + (c / 4096) mod 64;
         0x80 + (c / 64) mod 64; 0x80 + c mod 64]).
Proof.
  unfold utf8_encode_cp.
  destruct (Z.ltb_spec c 0); [discriminate|].
  destruct (Z.ltb_spec c 0x80).
  { intros E. left. split; [lia|congruence]. }
  destruct (Z.ltb_spec c 0x800).
  { intros E. right. left. split; [lia|congruence]. }
  destruct ((0xD800 <=? c) && (c <=? 0xDFFF)) eqn:Es; [discriminate|].
  assert (Hs : c < 0xD800 \/ 0xDFFF < c).
  { apply andb_false_iff in Es as [Es|Es]; apply Z.leb_gt in Es; lia. }
  destruct (Z.ltb_spec c 0x10000).
  { intros E. right. right. left. split; [lia|]. split; [exact Hs|congruence]. }
  destruct (Z.ltb_spec c 0x110000); [|discriminate].
  intros E. right. right. right. split; [lia|congruence].
Qed.

Lemma encode_cp_range (c : Z) (bs : list Z) :
  utf8_encode_cp c = Some bs -> Forall (fun b => 0 <= b < 256) bs.
Proof.
  intros E. apply encode_cp_cases in E
    as [(H & ->)|[(H & ->)|[(H & Hs & ->)|(H & ->)]]]; forall_range.
Qed.

Lemma utf8_encode_vals_range (s : str) (vs : list Z) :
  utf8_encode_vals s = Some vs -> Forall (fun b => 0 <= b < 256) vs.
Proof.
  revert vs. induction s as [|c s IH]; intros vs; simpl.
  - intros E; injection E as <-. constructor.
  - destruct (utf8_encode_cp c) as [bs|] eqn:Ec; [|discriminate].
    destruct (utf8_encode_vals s) as [rest|]; [|discriminate].
    intros E; injection E as <-.
    apply Forall_app. split; [eapply encode_cp_range; eauto | apply IH; reflexivity].
Qed.

(** Decoding the UTF-8 form of one code point in front of [rest]. *)
Lemma decode_encode_cp (c : Z) (bs rest : list Z) :
  utf8_encode_cp c = Some bs ->
  utf8_decode_vals (bs ++ rest) = option_map (cons c) (utf8_decode_vals rest).
Proof.
  intros E. apply encode_cp_cases in E
    as [(H & ->)|[(H & ->)|[(H & Hs & ->)|(H & ->)]]];
    cbn [app utf8_decode_vals].
  - cond_true ltac:(lia). reflexivity.
  - cond_false ltac:(Z.div_mod_to_equations; lia).
    cond_false ltac:(Z.div_mod_to_equations; lia).
    cond_true ltac:(Z.div_mod_to_equations; lia).
    unfold is_cont.
    rewrite (proj2 (Z.leb_le _ _)) by (Z.div_mod_to_equations; lia).
    rewrite (proj2 (Z.leb_le _ _)) by (Z.div_mod_to_equations; lia).
    cbn [andb]. do 2 f_equal. Z.div_mod_to_equations; lia.
  - cond_false ltac:(Z.div_mod_to_equations; lia).
    cond_false ltac:(Z.div_mod_to_equations; lia).
    cond_false ltac:(Z.div_mod_to_equations; lia).
    cond_true ltac:(Z.div_mod_to_equations; lia).
    unfold is_cont.
    replace (((if 0xE0 + c / 4096 =? 0xE0 then 0xA0 else 0x80) <=? 0x80 + (c / 64) mod 64)
             && (0x80 + (c / 64) mod 64 <=? (if 0xE0 + c / 4096 =? 0xED then 0x9F else 0xBF))
             && ((0x80 <=? 0x80 + c mod 64) && (0x80 + c mod 64 <=? 0xBF))) with true.
    2:{ symmetry. repeat (apply andb_true_iff; split); apply Z.leb_le;
        destruct (Z.eqb_spec (0xE0 + c / 4096) 0xE0);
        destruct (Z.eqb_spec (0xE0 + c / 4096) 0xED);
        Z.div_mod_to_equations; lia. }
    do 2 f_equal. Z.div_mod_to_equations; lia.
  - cond_false ltac:(Z.div_mod_to_equations; lia).
    cond_false ltac:(Z.div_mod_to_equations; lia).
    cond_false ltac:(Z.div_mod_to_equations; lia).
    cond_false ltac:(Z.div_mod_to_equations; lia).
    cond_true ltac:(Z.div_mod_to_equations; lia).
    unfold is_cont.
    replace (((if 0xF0 + c / 262144 =? 0xF0 then 0x90 else 0x80) <=? 0x80 + (c / 4096) mod 64)
             && (0x80 + (c / 4096) mod 64 <=? (if 0xF0 + c / 262144 =? 0xF4 then 0x8F else 0xBF))
             && ((0x80 <=? 0x80 + (c / 64) mod 64) && (0x80 + (c / 64) mod 64 <=? 0xBF))
             && ((0x80 <=? 0x80 + c mod 64) && (0x80 + c mod 64 <=? 0xBF))) with true.
    2:{ symmetry. repeat (apply andb_true_iff; split); apply Z.leb_le;
        destruct (Z.eqb_spec (0xF0 + c / 262144) 0xF0);
        destruct (Z.eqb_spec (0xF0 + c / 262144) 0xF4);
        Z.div_mod_to_equations; lia. }
    do 2 f_equal. Z.div_mod_to_equations; lia.
Qed.

(** Decoding what the encoder returned gives the text back. *)
Lemma utf8_decode_encode_vals (s : str) (vs : list Z) :
  utf8_encode_vals s = Some vs -> utf8_decode_vals vs = Some s.
Proof.
  revert vs. induction s as [|c s IH]; intros vs; simpl.
  - intros E; injection E as <-. reflexivity.
  - destruct (utf8_encode_cp c) as [bs|] eqn:Ec; [|discriminate].
    destruct (utf8_encode_vals s) as [rest|]; [|discriminate].
    intros E; injection E as <-.
    rewrite (decode_encode_cp c bs rest Ec), (IH rest eq_refl). reflexivity.
Qed.

Lemma utf8_decode_encode (s : str) (raw : bytes) :
  utf8_encode s = Ok raw -> utf8_decode raw = Ok s.
Proof.
  unfold utf8_encode, utf8_decode.
  destruct (utf8_encode_vals s) as [vs|] eqn:E; [|discriminate].
  intros H; injection H as <-.
  rewrite map_byte_val_of by (eapply utf8_encode_vals_range; eauto).
  rewrite (utf8_decode_encode_vals s vs E). reflexivity.
Qed.

(** ** More on [verify_signature], [create_signature] and [parse_event] *)

Lemma verdict_by_parsed_header (now : Z) (p : payload) (sig secret : str) (tol : Z) :
  verdict now p sig secret tol =
  match parsed_timestamp sig, header_value "v1" sig with
  | Some ts, Some received =>
      negb (Z.abs (now - ts) >? tol) &&
      match (raw <- payload_bytes p ;; canonical_digest secret ts raw) with
      | Ok d => match Hmac.compare_digest received d with
                | Ok b => b
                | Err _ => false
                end
      | Err _ => false
      end
  | _, _ => false
  end.
Proof.
  unfold verdict, parsed_timestamp.
  destruct (header_value "t" sig) as [ts_text|]; [|reflexivity].
  destruct (header_value "v1" sig) as [received|];
    destruct (py_int ts_text) as [ts|]; try reflexivity.
  destruct (Z.abs (now - ts) >? tol); reflexivity.
Qed.

Lemma gtb_negb_leb (a b : Z) : negb (a >? b) = (a <=? b).
Proof.
  rewrite Z.gtb_ltb. symmetry. apply Z.leb_antisym.
Qed.



(** X10: for a given payload, header and secret, the answer of
    [verify_signature] as a function of the clock and the tolerance is
    either [False] throughout, or exactly the window test
    [|now - ts| <= tolerance] around the header's timestamp [ts].  Hence a
    negative tolerance rejects everything, and a header accepted with one
    tolerance is accepted with every larger one. *)
Theorem acceptance_is_a_window (p : payload) (sig secret : str) :
  ((forall now tol, verify_signature now p sig secret tol = Ok false) \/
   (exists ts, parsed_timestamp sig = Some ts /\
      forall now tol,
        verify_signature now p sig secret tol = Ok (Z.abs (now - ts) <=? tol))) /\
  (forall now tol, tol < 0 -> verify_signature now p sig secret tol = Ok false) /\
  (forall now tol tol',
     verify_signature now p sig secret tol = Ok true -> tol <= tol' ->
     verify_signature now p sig secret tol' = Ok true).
Proof.
  assert (Hw : (forall now tol, verify_signature now p sig secret tol = Ok false) \/
   (exists ts, parsed_timestamp sig = Some ts /\
      forall now tol,
        verify_signature now p sig secret tol = Ok (Z.abs (now - ts) <=? tol))).
  { destruct (parsed_timestamp sig) as [ts|] eqn:Et.
    2:{ left. intros. rewrite verify_signature_verdict, verdict_by_parsed_header, Et.
        reflexivity. }
    destruct (header_value "v1" sig) as [received|] eqn:Ev.
    2:{ left. intros. rewrite verify_signature_verdict, verdict_by_parsed_header, Et, Ev.
        reflexivity. }
    destruct (match (raw <- payload_bytes p ;; canonical_digest secret ts raw) with
              | Ok d => match Hmac.compare_digest received d with
                        | Ok b => b
                        | Err _ => false
                        end
              | Err _ => false
              end) eqn:Ed.
    - right. exists ts. split; [reflexivity|]. intros.
      rewrite verify_signature_verdict, verdict_by_parsed_header, Et, Ev, Ed.
      rewrite andb_true_r, gtb_negb_leb. reflexivity.
    - left. intros.
      rewrite verify_signature_verdict, verdict_by_parsed_header, Et, Ev, Ed.
      rewrite andb_false_r. reflexivity. }
  split; [exact Hw|]. split.
  - intros now tol Htol. destruct Hw as [Hw|(ts & _ & Hw)]; rewrite Hw; [reflexivity|].
    f_equal. apply Z.leb_gt. lia.
  - intros now tol tol' H Hle. destruct Hw as [Hw|(ts & _ & Hw)].
    + rewrite Hw in H. discriminate.
    + rewrite Hw in *. injection H as H. apply Z.leb_le in H.
      f_equal. apply Z.leb_le. lia.
Qed.

(** X11: [verify_signature] answers [True] only for a [v1] value of
    exactly 64 lowercase hexadecimal digits: the comparison is with the
    text of [hexdigest], so the same digest in upper case, shortened or
    padded, is rejected. *)
Theorem accepted_value_is_lower_hex
    (now : Z) (p : payload) (sig secret : str) (tol : Z) :
  verify_signature now p sig secret tol = Ok true ->
  exists received,
    header_value "v1" sig = Some received /\
    length received = 64%nat /\ Forall lower_hex received.
Proof.
  intros H. apply verify_signature_true_iff in H
    as (ts_text & ts & received & raw & _ & _ & Hv & _ & _ & Hd).
  exists received. split; [exact Hv|].
  eapply canonical_digest_shape; eauto.
Qed.

Lemma accepted_value_is_lower_hex_witness :
  exists received,
    header_value "v1"
      (lit "t=1700000000,v1=35495024f4ef3f94e5a93e22221544c4b75e9a42300cd965ab81cb85cd994e91")
    = Some received /\
    length received = 64%nat /\ Forall lower_hex received.
Proof.
  apply (accepted_value_is_lower_hex 1700000000 (PBytes (blit "{}")) _
           (lit "whsec_test") 300).
  vm_compute. reflexivity.
Defined.


Lemma lower_hex_visible (d : str) : Forall lower_hex d -> Forall visible_ascii d.
Proof.
  apply Forall_impl. unfold lower_hex, visible_ascii. lia.
Qed.

(** X13: the header that [create_signature] returns reads back: cut at
    commas it has exactly two tokens, [t=] with the decimal timestamp and
    [v1=] with the digest; [int] of its [t] value is the timestamp that was
    signed; its [v1] value is the canonical digest; and it consists of
    visible ASCII characters only, without spaces. *)
Theorem created_header_reads_back
    (now : Z) (p : payload) (secret : str) (timestamp : option Z) (h : str) :
  create_signature now p secret timestamp = Ok h ->
  let ts := py_or_int timestamp now in
  exists raw d,
    payload_bytes p = Ok raw /\ canonical_digest secret ts raw = Ok d /\
    split 0x2C h = [lit "t=" ++ py_str_int ts; lit "v1=" ++ d] /\
    parsed_timestamp h = Some ts /\
    header_value "v1" h = Some d /\
    Forall visible_ascii h.
Proof.
  intros H ts. rewrite create_signature_canonical in H.
  destruct (payload_bytes p) as [raw|] eqn:Ep; [|discriminate]. cbn [bind] in H.
  fold ts in H.
  destruct (canonical_digest secret ts raw) as [d|] eqn:Ed; [|discriminate].
  cbn [bind] in H.
  assert (Hh : h = lit "t=" ++ py_str_int ts ++ lit ",v1=" ++ d) by congruence.
  clear H. subst h.
  destruct (canonical_digest_shape _ _ _ _ Ed) as [_ Hd].
  destruct (header_values_of_signature ts d Hd) as [Ht Hv].
  exists raw, d. split; [reflexivity|]. split; [exact Ed|].
  split; [|split; [|split]].
  - replace (lit "t=" ++ py_str_int ts ++ lit ",v1=" ++ d)
      with ((lit "t=" ++ py_str_int ts) ++ 0x2C :: (lit "v1=" ++ d))
      by (rewrite <- app_assoc; reflexivity).
    apply split_two_tokens.
    + intros [E|[E|E]]; [discriminate..|]. exact (no_comma_in_int _ E).
    + intros [E|[E|[E|E]]]; [discriminate..|]. exact (no_comma_in_hex _ Hd E).
  - unfold parsed_timestamp. rewrite Ht, py_int_str. reflexivity.
  - exact Hv.
  - apply Forall_app. split; [repeat constructor; unfold visible_ascii; simpl; lia|].
    apply Forall_app. split.
    + eapply Forall_impl; [|apply py_str_int_chars].
      unfold visible_ascii, digit_char. lia.
    + apply Forall_app. split; [|apply lower_hex_visible; exact Hd].
      repeat constructor; unfold visible_ascii; simpl; lia.
Qed.

Lemma created_header_reads_back_witness :
  parsed_timestamp (lit "t=-5,v1=25c09c6f3a12c205073efd341a82541b3a3771a6f6646abe0ab03e98549f25c8") = Some (-5) /\
  Forall visible_ascii (lit "t=-5,v1=25c09c6f3a12c205073efd341a82541b3a3771a6f6646abe0ab03e98549f25c8").
Proof.
  destruct (created_header_reads_back 1700000000 (PBytes (blit "{}"))
              (lit "whsec_test") (Some (-5))
              (lit "t=-5,v1=25c09c6f3a12c205073efd341a82541b3a3771a6f6646abe0ab03e98549f25c8"))
    as (raw & d & _ & _ & _ & Ht & _ & Hv).
  - vm_compute. reflexivity.
  - split; [exact Ht | exact Hv].
Defined.

(** X14: a header written by [create_signature] is judged by its
    timestamp alone: [verify_signature], with the same payload and secret,
    answers whether the timestamp that was signed is within the tolerance
    of the verifier's clock.  The timestamp that was signed is the clock of
    the signer when the argument is omitted (or zero), so a header made
    with the default and verified while the clock has moved by at most the
    tolerance is accepted. *)
Theorem created_header_verdict
    (now_s now : Z) (p : payload) (secret : str) (timestamp : option Z)
    (tol : Z) (h : str) :
  create_signature now_s p secret timestamp = Ok h ->
  verify_signature now p h secret tol
  = Ok (Z.abs (now - py_or_int timestamp now_s) <=? tol) /\
  (timestamp = None -> Z.abs (now - now_s) <= tol ->
   verify_signature now p h secret tol = Ok true).
Proof.
  intros H.
  assert (E := sign_then_verify now_s now p secret timestamp tol h H).
  rewrite gtb_negb_leb in E. split; [exact E|].
  intros -> Hw. rewrite E. cbn [py_or_int]. f_equal. apply Z.leb_le. exact Hw.
Qed.

Lemma created_header_verdict_witness :
  verify_signature 1700000300 (PBytes (blit "{}"))
    (lit "t=1700000000,v1=35495024f4ef3f94e5a93e22221544c4b75e9a42300cd965ab81cb85cd994e91")
    (lit "whsec_test") 300
  = Ok true.
Proof.
  apply (created_header_verdict 1700000000 1700000300 (PBytes (blit "{}"))
           (lit "whsec_test") None 300).
  - vm_compute. reflexivity.
  - reflexivity.
  - simpl. lia.
Defined.

Lemma utf8_encode_vals_app (a b : str) :
  utf8_encode_vals (a ++ b) =
  match utf8_encode_vals a, utf8_encode_vals b with
  | Some x, Some y => Some (x ++ y)
  | _, _ => None
  end.
Proof.
  induction a as [|c a IH]; simpl.
  - destruct (utf8_encode_vals b); reflexivity.
  - rewrite IH. destruct (utf8_encode_cp c) as [bs|]; [|reflexivity].
    destruct (utf8_encode_vals a) as [x|]; [|reflexivity].
    destruct (utf8_encode_vals b) as [y|]; [|reflexivity].
    rewrite app_assoc. reflexivity.
Qed.

Lemma utf8_encode_vals_ascii (a : str) :
  Forall (fun c => 0 <= c < 0x80) a -> utf8_encode_vals a = Some a.
Proof.
  induction 1 as [|c a Hc _ IH]; simpl; [reflexivity|].
  rewrite encode_cp_1 by exact Hc. rewrite IH. reflexivity.
Qed.

(** The bytes that are authenticated: the ASCII text of the timestamp and
    a full stop, then the payload's bytes as they are. *)
Lemma signed_payload_bytes (ts : Z) (raw : bytes) (decoded : str) :
  utf8_decode raw = Ok decoded ->
  utf8_encode (py_str_int ts ++ lit "." ++ decoded)
  = Ok (ascii_bytes (py_str_int ts ++ lit ".") ++ raw).
Proof.
  intros Hd. unfold utf8_encode.
  assert (Hdec : utf8_encode_vals decoded = Some (List.map byte_val raw)).
  { unfold utf8_decode in Hd.
    destruct (utf8_decode_vals (List.map byte_val raw)) as [s'|] eqn:E; [|discriminate].
    injection Hd as <-.
    apply (utf8_encode_decode_vals _ (List.map byte_val raw) (le_n _)); [|exact E].
    apply Forall_forall. intros x Hx. apply in_map_iff in Hx as (y & <- & _).
    apply byte_val_range. }
  rewrite app_assoc, utf8_encode_vals_app, Hdec.
  rewrite utf8_encode_vals_ascii.
  - unfold ascii_bytes. rewrite map_app, map_byte_of_val. reflexivity.
  - apply Forall_app. split; [|repeat constructor; simpl; lia].
    eapply Forall_impl; [|apply py_str_int_chars]. unfold digit_char. lia.
Qed.

Lemma canonical_digest_raw (secret : str) (ts : Z) (raw : bytes) (d : str) :
  canonical_digest secret ts raw = Ok d ->
  exists key, utf8_encode secret = Ok key /\
              d = Hmac.hexdigest key (ascii_bytes (py_str_int ts ++ lit ".") ++ raw).
Proof.
  unfold canonical_digest.
  destruct (utf8_decode raw) as [decoded|] eqn:Ed; [|discriminate]. cbn [bind].
  destruct (utf8_encode secret) as [key|]; [|discriminate]. cbn [bind].
  rewrite (signed_payload_bytes ts raw decoded Ed). cbn [bind].
  intros H. exists key. split; [reflexivity|congruence].
Qed.

(** X15: the decoding and re-encoding in [create_signature] and
    [verify_signature] leave the payload's bytes as they are: the message
    that is authenticated is the ASCII decimal timestamp, a full stop and
    then the raw bytes of the payload, byte for byte.  So the header that
    [create_signature] returns carries the HMAC-SHA256 of exactly those
    bytes, and [verify_signature] accepts only a [v1] value that is the
    HMAC-SHA256 of exactly those bytes. *)
Theorem signed_message_is_raw_bytes
    (now : Z) (p : payload) (raw : bytes) (secret : str) :
  payload_bytes p = Ok raw ->
  (forall timestamp h,
     create_signature now p secret timestamp = Ok h ->
     exists key,
       utf8_encode secret = Ok key /\
       h = lit "t=" ++ py_str_int (py_or_int timestamp now) ++ lit ",v1="
           ++ Hmac.hexdigest key
                (ascii_bytes (py_str_int (py_or_int timestamp now) ++ lit ".") ++ raw)) /\
  (forall sig tol,
     verify_signature now p sig secret tol = Ok true ->
     exists key ts,
       utf8_encode secret = Ok key /\ parsed_timestamp sig = Some ts /\
       header_value "v1" sig
       = Some (Hmac.hexdigest key (ascii_bytes (py_str_int ts ++ lit ".") ++ raw))).
Proof.
  intros Hp. split.
  - intros timestamp h H. rewrite create_signature_canonical, Hp in H.
    cbn [bind] in H.
    destruct (canonical_digest secret _ raw) as [d|] eqn:Ed; [|discriminate].
    cbn [bind] in H.
    destruct (canonical_digest_raw _ _ _ _ Ed) as (key & Hk & ->).
    exists key. split; [exact Hk|congruence].
  - intros sig tol H. apply verify_signature_true_iff in H
      as (ts_text & ts & received & raw' & Ht & Hi & Hv & _ & Hp' & Hd).
    assert (raw' = raw) by congruence. subst raw'.
    destruct (canonical_digest_raw _ _ _ _ Hd) as (key & Hk & ->).
    exists key, ts. split; [exact Hk|]. split; [|exact Hv].
    unfold parsed_timestamp. rewrite Ht, Hi. reflexivity.
Qed.

Lemma signed_message_is_raw_bytes_witness :
  exists key,
    utf8_encode (lit "whsec_test") = Ok key /\
    lit "t=1700000000,v1=35495024f4ef3f94e5a93e22221544c4b75e9a42300cd965ab81cb85cd994e91"
    = lit "t=" ++ py_str_int 1700000000 ++ lit ",v1="
      ++ Hmac.hexdigest key (ascii_bytes (py_str_int 1700000000 ++ lit ".") ++ blit "{}").
Proof.
  destruct (signed_message_is_raw_bytes 1700000000 (PBytes (blit "{}")) (blit "{}")
              (lit "whsec_test") eq_refl) as [Hs _].
  apply (Hs (Some 1700000000)).
  vm_compute. reflexivity.
Defined.

(** X16: after [verify_signature] has answered [True], [parse_event] on
    the same payload cannot fail on account of the encoding: the payload's
    bytes decode as UTF-8, the text handed to [json.loads] is the very text
    whose digest was verified, and [parse_event] returns what [json.loads]
    returns for it, or turns its [JSONDecodeError] into the [ValueError];
    any other exception of [json.loads] passes through. *)
Theorem verified_payload_is_parsed_text
    (now : Z) (p : payload) (sig secret : str) (tol : Z) :
  verify_signature now p sig secret tol = Ok true ->
  exists raw text,
    payload_bytes p = Ok raw /\ utf8_decode raw = Ok text /\
    payload_text p = Ok text /\
    forall json_loads,
      parse_event json_loads p =
      match json_loads text with
      | Ok v => Ok v
      | Err e =>
          if existsb (issubclass (exn_cls e))
               [JSONDecodeError; UnicodeDecodeError; AttributeError]
          then Err MalformedPayload
          else Err e
      end.
Proof.
  intros H. apply verify_signature_true_iff in H
    as (ts_text & ts & received & raw & _ & _ & _ & _ & Hp & Hd).
  unfold canonical_digest in Hd.
  destruct (utf8_decode raw) as [text|] eqn:Et; [|discriminate].
  exists raw, text. split; [exact Hp|]. split; [exact Et|].
  assert (Hpt : payload_text p = Ok text).
  { destruct p as [s|b]; simpl in *.
    - apply utf8_decode_encode in Hp. congruence.
    - congruence. }
  split; [exact Hpt|].
  intros json_loads. rewrite parse_event_cases, Hpt. reflexivity.
Qed.

Lemma verified_payload_is_parsed_text_witness :
  exists raw text,
    payload_bytes (PBytes (blit "{}")) = Ok raw /\ utf8_decode raw = Ok text /\
    payload_text (PBytes (blit "{}")) = Ok text /\
    parse_event Json.loads (PBytes (blit "{}")) =
    match Json.loads text with
    | Ok v => Ok v
    | Err e =>
        if existsb (issubclass (exn_cls e))
             [JSONDecodeError; UnicodeDecodeError; AttributeError]
        then Err MalformedPayload
        else Err e
    end.
Proof.
  destruct (verified_payload_is_parsed_text 1700000000 (PBytes (blit "{}"))
              (lit "t=1700000000,v1=35495024f4ef3f94e5a93e22221544c4b75e9a42300cd965ab81cb85cd994e91")
              (lit "whsec_test") 300) as (raw & text & Hp & Hd & Hpt & H).
  - vm_compute. reflexivity.
  - exists raw, text. split; [exact Hp|]. split; [exact Hd|].
    split; [exact Hpt | apply H].
Defined.

(** X17: a [str] payload and the [bytes] of its UTF-8 form are the same
    payload to [parse_event]: whenever the text encodes, both calls return
    the same event or raise the same error. *)
Theorem parse_event_str_and_bytes_agree
    (json_loads : str -> result Json.value) (s : str) (raw : bytes) :
  utf8_encode s = Ok raw ->
  parse_event json_loads (PStr s) = parse_event json_loads (PBytes raw).
Proof.
  intros H. rewrite !parse_event_cases. cbn [payload_text].
  rewrite (utf8_decode_encode s raw H). reflexivity.
Qed.

Lemma parse_event_str_and_bytes_agree_witness :
  parse_event Json.loads (PStr (Json.text "{'id': 'evt_1'}"))
  = parse_event Json.loads (PBytes (Json.btext "{'id': 'evt_1'}")).
Proof.
  apply parse_event_str_and_bytes_agree. vm_compute. reflexivity.
Defined.

(** ** [HttpClient._update_rate_limit_info] *)

(** X18: [_update_rate_limit_info] never raises.  It reads the headers
    [X-RateLimit-Remaining], [X-RateLimit-Limit] and [X-RateLimit-Reset] in
    this order; an absent header leaves its attribute as it was; and the
    first header whose value [int] rejects ends the update: the attributes
    of the headers before it keep their new values, its own attribute and
    those of the headers after it keep their old ones, valid or not. *)
Theorem update_rate_limit_info_spec
    (h : HttpClient.headers) (self : HttpClient.rate_limit) :
  let remaining := header_int h "X-RateLimit-Remaining" in
  let limit := header_int h "X-RateLimit-Limit" in
  let reset := header_int h "X-RateLimit-Reset" in
  let self' := fst (HttpClient._update_rate_limit_info h self) in
  snd (HttpClient._update_rate_limit_info h self) = Ok tt /\
  HttpClient._rate_limit_remaining self'
  = updated (HttpClient._rate_limit_remaining self) remaining /\
  HttpClient._rate_limit_limit self'
  = (if well_formed remaining
     then updated (HttpClient._rate_limit_limit self) limit
     else HttpClient._rate_limit_limit self) /\
  HttpClient._rate_limit_reset self'
  = (if well_formed remaining && well_formed limit
     then updated (HttpClient._rate_limit_reset self) reset
     else HttpClient._rate_limit_reset self).
Proof.
  unfold header_int, HttpClient._update_rate_limit_info, HttpClient.seq,
    HttpClient.assign_int.
  destruct (HttpClient.header_get (lit "X-RateLimit-Remaining") h) as [r|];
    cbn [option_map];
    [destruct (py_int r) as [rn|re] eqn:Er;
     [|apply py_int_raises in Er; subst; cbn; auto]|];
  (destruct (HttpClient.header_get (lit "X-RateLimit-Limit") h) as [l|];
    cbn [option_map];
    [destruct (py_int l) as [ln|le] eqn:El;
     [|apply py_int_raises in El; subst; cbn; auto]|];
   (destruct (HttpClient.header_get (lit "X-RateLimit-Reset") h) as [t|];
     cbn [option_map];
     [destruct (py_int t) as [tn|te] eqn:Et;
      [|apply py_int_raises in Et; subst; cbn; auto]|];
    cbn; auto)).
Qed.

Lemma update_rate_limit_info_spec_witness :
  HttpClient._update_rate_limit_info
    [(lit "X-RateLimit-Remaining", lit "41");
     (lit "X-RateLimit-Limit", lit "n/a");
     (lit "X-RateLimit-Reset", lit "1700000060")]
    (HttpClient.mk_rate_limit (Some 42) (Some 1700000000) (Some 100))
  = (HttpClient.mk_rate_limit (Some 41) (Some 1700000000) (Some 100), Ok tt).
Proof.
  pose proof (update_rate_limit_info_spec
    [(lit "X-RateLimit-Remaining", lit "41");
     (lit "X-RateLimit-Limit", lit "n/a");
     (lit "X-RateLimit-Reset", lit "1700000060")]
    (HttpClient.mk_rate_limit (Some 42) (Some 1700000000) (Some 100))) as H.
  cbv zeta in H. destruct H as (Hs & Hr & Hl & Ht).
  destruct (HttpClient._update_rate_limit_info _ _) as [[r t l] o].
  cbn [fst snd HttpClient._rate_limit_remaining HttpClient._rate_limit_limit
       HttpClient._rate_limit_reset] in *.
  rewrite Hs, Hr, Hl, Ht. vm_compute. reflexivity.
Defined.
